(** * WebClient: the release synchronisation task, the loader directive and
      the build configuration

    The development embeds three source files:
    - [tasks/rebaseWebClient], a Node script that drives git through
      [child_process.exec];
    - the [protonLoader] directive;
    - [env/conf.build.js], the table of third-party files.

    The script talks to git, a shell, grep and npm packages (minimist, chalk,
    strip-ansi, dedent); the directive talks to the browser.  They are not
    part of the repository and are modelled here by small executable
    definitions ([Text.stripAnsi], [Js], [Grep], [Git], [Shell],
    [ProtonLoader.animation_frame]); each one says what it keeps of the real
    tool.  The functions of the script itself are translated line by line in
    [RebaseWebClient]. *)

From stdpp Require Import base gmap strings list.

Open Scope string_scope.

(** ** Text: JavaScript string operations used by the script *)

Module Text.

Definition char (n : nat) : string := String (Ascii.ascii_of_nat n) "".

(** The line feed and the double quote, which cannot be typed in a literal. *)
Definition nl : string := char 10.
Definition dq : string := char 34.

Definition code (c : Ascii.ascii) : nat := Ascii.nat_of_ascii c.

Definition between (lo hi : nat) (c : Ascii.ascii) : bool :=
  (lo <=? code c)%nat && (code c <=? hi)%nat.

Definition is_code (n : nat) (c : Ascii.ascii) : bool := (code c =? n)%nat.

Fixpoint all (P : Ascii.ascii -> bool) (s : string) : bool :=
  match s with
  | "" => true
  | String c s' => P c && all P s'
  end.

(** Printable ASCII: no control character (so no line feed and no ESC). *)
Definition printable (c : Ascii.ascii) : bool := between 32 126 c.

(** Lower-case hexadecimal digits, as [%H] prints them. *)
Definition hex (c : Ascii.ascii) : bool := between 48 57 c || between 97 102 c.

(** [s.split(sep)] for a non-empty separator: the pieces between the
    leftmost, non-overlapping occurrences of [sep].  [skip] counts the
    characters of a separator still to be passed over. *)
Fixpoint split_from (sep : string) (skip : nat) (s : string) : list string :=
  match s with
  | "" => [""]
  | String c s' =>
      match skip with
      | S k => split_from sep k s'
      | O =>
          if String.prefix sep s
          then "" :: split_from sep (String.length sep - 1) s'
          else match split_from sep 0 s' with
               | piece :: pieces => String c piece :: pieces
               | [] => [String c ""]
               end
      end
  end.

Definition split (sep s : string) : list string := split_from sep 0 s.

(** Array destructuring with a default, [const [ a = '', b = '' ] = parts]:
    a missing element takes the default. *)
Definition item (i : nat) (parts : list string) : string := nth i parts "".

(** [sub] occurs somewhere in [s]. *)
Fixpoint contains (sub s : string) : bool :=
  String.prefix sub s ||
  match s with
  | "" => false
  | String _ s' => contains sub s'
  end.

(** npm package strip-ansi, restricted to what git and chalk emit: the
    control sequences ESC [ parameters final-byte are deleted, every other
    character is kept.  The proofs only use that a text without ESC is
    returned as it is ([stripAnsi_plain]). *)
Inductive AnsiState := InText | AfterEsc | InCsi.

Fixpoint strip_from (st : AnsiState) (s : string) : string :=
  match s with
  | "" => ""
  | String c s' =>
      match st with
      | InText =>
          if is_code 27 c then strip_from AfterEsc s'
          else String c (strip_from InText s')
      | AfterEsc =>
          if is_code 91 c then strip_from InCsi s'
          else String c (strip_from InText s')
      | InCsi =>
          if between 48 57 c || is_code 59 c then strip_from InCsi s'
          else strip_from InText s'
      end
  end.

Definition stripAnsi (s : string) : string := strip_from InText s.

(** [lines.join(sep)]. *)
Fixpoint join (sep : string) (l : list string) : string :=
  match l with
  | [] => ""
  | [x] => x
  | x :: rest => x +:+ sep +:+ join sep rest
  end.

(** Every line followed by a line feed, as a Unix filter prints them. *)
Definition unlines (l : list string) : string :=
  foldr (fun x acc => x +:+ nl +:+ acc) "" l.

(** [s.toUpperCase()] on the letters a to z; the other bytes are kept. *)
Fixpoint toUpperCase (s : string) : string :=
  match s with
  | "" => ""
  | String c s' =>
      String (if between 97 122 c then Ascii.ascii_of_nat (code c - 32) else c)
             (toUpperCase s')
  end.

Definition hex_digit (n : nat) : string :=
  char (if (n <? 10)%nat then 48 + n else 87 + n).

(** One character inside a JSON string, as [JSON.stringify] writes it. *)
Definition json_char (c : Ascii.ascii) : string :=
  let n := code c in
  if (n =? 34)%nat then char 92 +:+ dq
  else if (n =? 92)%nat then char 92 +:+ char 92
  else if (n =? 8)%nat then char 92 +:+ "b"
  else if (n =? 9)%nat then char 92 +:+ "t"
  else if (n =? 10)%nat then char 92 +:+ "n"
  else if (n =? 12)%nat then char 92 +:+ "f"
  else if (n =? 13)%nat then char 92 +:+ "r"
  else if (n <? 32)%nat
       then char 92 +:+ "u00" +:+ hex_digit (n / 16) +:+ hex_digit (n mod 16)
  else String c "".

Fixpoint json_chars (s : string) : string :=
  match s with
  | "" => ""
  | String c s' => json_char c +:+ json_chars s'
  end.

Definition json_string (s : string) : string := dq +:+ json_chars s +:+ dq.

End Text.

(** ** Js: the JavaScript values the script and the directive test *)

Module Js.

(** What minimist puts in [argv.tag] and [argv.help], and what an event
    carries as its type: nothing, a flag, a number or a text.  The code tests
    a number and writes it in a template and does nothing else with it, so a
    number is kept as what these two give: whether it is 0 or NaN, and the
    text a template writes for it ([1e+21] for ten to the power 21, [3.12]
    for 3.12).  [--tag=0] is [Number true "0"]. *)
Inductive Val :=
| Undefined
| Bool (b : bool)
| Number (zero_or_nan : bool) (text : string)
| Str (s : string).

(** [if (v)], [v && ...], [!v]. *)
Definition truthy (v : Val) : bool :=
  match v with
  | Undefined => false
  | Bool b => b
  | Number zero_or_nan _ => negb zero_or_nan
  | Str s => negb (String.eqb s "")
  end.

(** [`${v}`]. *)
Definition template (v : Val) : string :=
  match v with
  | Undefined => "undefined"
  | Bool true => "true"
  | Bool false => "false"
  | Number _ text => text
  | Str s => s
  end.

(** [v === 'text']. *)
Definition is_str (v : Val) (t : string) : bool :=
  match v with
  | Str s => String.eqb s t
  | _ => false
  end.

End Js.

(** ** Grep: the two filters of the script

    [grep PATTERN] and [grep -w PATTERN] read lines and print the selected
    ones; the exit status is 0 when a line was selected and 1 otherwise.
    The pattern is a basic regular expression: the model keeps the ordinary
    characters and the dot, which stands for any character.  Patterns with
    other special characters are outside the model ([Grep.plain]). *)

Module Grep.

(** Word constituents: letters, digits and the underscore. *)
Definition word_char (c : Ascii.ascii) : bool :=
  Text.between 48 57 c || Text.between 65 90 c || Text.between 97 122 c
  || Text.is_code 95 c.

Definition char_matches (p c : Ascii.ascii) : bool :=
  Text.is_code 46 p || Ascii.eqb p c.

(** The pattern matches at the start of [s]. *)
Fixpoint matches_here (pat s : string) : bool :=
  match pat with
  | "" => true
  | String p pat' =>
      match s with
      | "" => false
      | String c s' => char_matches p c && matches_here pat' s'
      end
  end.

Fixpoint selects (pat s : string) : bool :=
  matches_here pat s ||
  match s with
  | "" => false
  | String _ s' => selects pat s'
  end.

(** With [-w]: the pattern matches at the start of [s] and the match is
    followed by the end of the line or by a non-word character. *)
Fixpoint word_here (pat s : string) : bool :=
  match pat with
  | "" => match s with
          | "" => true
          | String c _ => negb (word_char c)
          end
  | String p pat' =>
      match s with
      | "" => false
      | String c s' => char_matches p c && word_here pat' s'
      end
  end.

(** [after_word] tells whether the character before [s] is a word
    constituent; a match must start at the beginning of the line or after a
    non-word character. *)
Fixpoint selects_word_from (after_word : bool) (pat s : string) : bool :=
  (negb after_word && word_here pat s) ||
  match s with
  | "" => false
  | String c s' => selects_word_from (word_char c) pat s'
  end.

Definition selects_word (pat line : string) : bool :=
  selects_word_from false pat line.

(** Characters that the shell or grep would not take literally inside
    ["..."]: the double quote, dollar, backquote, backslash, brackets, star
    and caret. *)
Definition special (c : Ascii.ascii) : bool :=
  Text.is_code 34 c || Text.is_code 36 c || Text.is_code 96 c
  || Text.is_code 92 c || Text.is_code 91 c || Text.is_code 93 c
  || Text.is_code 42 c || Text.is_code 94 c.

(** Patterns the model is faithful for: not empty, not starting with a dash
    (grep would read an option), printable and without special characters. *)
Definition plain (pat : string) : bool :=
  match pat with
  | "" => false
  | String c _ =>
      negb (Text.is_code 45 c)
      && Text.all (fun c => Text.printable c && negb (special c)) pat
  end.

End Grep.

(** ** Git: the repository the script works on

    A repository with linear histories.  A history is the list of the commits
    of a branch, most recent first, so the ancestors of a commit are the
    commits after it.  The model keeps what the script observes: the branch
    checked out, the local branches, the names of the tags, the registered
    remotes with their remote-tracking branches, the configuration, and the
    hosted repositories the remotes point to.

    What the model takes for granted, and the statements below with it:
    - a branch is checked out (HEAD is not detached) and the working tree is
      clean;
    - commits are named by their full identifier, and a merge that is not a
      fast-forward fails;
    - a name given to [git checkout] is a local branch or names nothing: no
      tag, tracked file or remote-tracking branch stands in for a branch that
      is missing;
    - the configuration is written and never read: it holds no mapping
      [remote.*.push] that sends [public] to another branch, and no rewritten
      address;
    - a hosted repository holds branches only.
    The exit statuses are those of git 2.39.  The texts written on the
    standard error are git's without the hints; of a text of several lines
    the model keeps the first line that starts with [error:] or [fatal:],
    and all the lines where a statement quotes the text (a HEAD that names
    no commit, an empty range). *)

Module Git.

Record Commit := { sha : string; subject : string }.

#[global] Instance Commit_eq_dec : EqDecision Commit.
Proof. solve_decision. Defined.

Record Remote := {
  url : string;
  tracking : gmap string (list Commit)
}.

Record Repo := {
  (** name printed by [git rev-parse --abbrev-ref HEAD] *)
  head : string;
  branches : gmap string (list Commit);
  (** names of the local tags *)
  tags : gset string;
  remotes : gmap string Remote;
  config : gmap string string;
  (** hosted repositories that can be reached, by URL *)
  servers : gmap string (gmap string (list Commit));
  (** commits whose replay stops: a conflict that [-X theirs] leaves, or a
      change that the branch already holds (a commit that was made empty is
      replayed, with [--allow-empty]) *)
  conflicts : gset string;
  (** identifier git gives to a commit replayed on a parent *)
  object_id : string -> Commit -> string
}.

Record Outcome := { status : nat; stdout : string; stderr : string }.

Definition ok (out : string) (r : Repo) : Outcome * Repo :=
  ({| status := 0; stdout := out; stderr := "" |}, r).

Definition fail (code : nat) (err : string) (r : Repo) : Outcome * Repo :=
  ({| status := code; stdout := ""; stderr := err |}, r).

Definition with_head (h : string) (r : Repo) : Repo :=
  {| head := h; branches := branches r; tags := tags r; remotes := remotes r;
     config := config r; servers := servers r; conflicts := conflicts r;
     object_id := object_id r |}.

Definition with_branches (b : gmap string (list Commit)) (r : Repo) : Repo :=
  {| head := head r; branches := b; tags := tags r; remotes := remotes r;
     config := config r; servers := servers r; conflicts := conflicts r;
     object_id := object_id r |}.

Definition with_remotes (m : gmap string Remote) (r : Repo) : Repo :=
  {| head := head r; branches := branches r; tags := tags r; remotes := m;
     config := config r; servers := servers r; conflicts := conflicts r;
     object_id := object_id r |}.

Definition with_config (c : gmap string string) (r : Repo) : Repo :=
  {| head := head r; branches := branches r; tags := tags r;
     remotes := remotes r;
     config := c; servers := servers r; conflicts := conflicts r;
     object_id := object_id r |}.

Definition with_servers (s : gmap string (gmap string (list Commit)))
    (r : Repo) : Repo :=
  {| head := head r; branches := branches r; tags := tags r;
     remotes := remotes r;
     config := config r; servers := s; conflicts := conflicts r;
     object_id := object_id r |}.

(** History of the branch checked out. *)
Definition current (r : Repo) : option (list Commit) := branches r !! head r.

(** The short name of the branch checked out: git writes [heads/name] when
    a tag has the same name. *)
Definition abbrev_ref (r : Repo) : string :=
  if bool_decide (head r ∈ tags r) then "heads/" +:+ head r else head r.

(** What git says of a HEAD that names no commit. *)
Definition unknown_head : string :=
  Text.unlines
    [ "fatal: ambiguous argument 'HEAD': unknown revision or path not in the working tree.";
      "Use '--' to separate paths from revisions, like this:";
      "'git <command> [<revision>...] -- [<file>...]'" ].

(** [git rev-parse --abbrev-ref HEAD]: prints the short name.  On a branch
    without commits HEAD names no commit and the command fails. *)
Definition rev_parse_head (r : Repo) : Outcome * Repo :=
  match current r with
  | Some (_ :: _) => ok (abbrev_ref r +:+ Text.nl) r
  | _ =>
      ({| status := 128; stdout := "HEAD" +:+ Text.nl; stderr := unknown_head |},
       r)
  end.

(** [git log -1 --pretty=format:...]: the most recent commit, formatted,
    without a final line feed. *)
Definition log1 (fmt : Commit -> string) (r : Repo) : Outcome * Repo :=
  match current r with
  | Some (c :: _) => ok (fmt c) r
  | _ =>
      fail 128 ("fatal: your current branch '" +:+ head r
                +:+ "' does not have any commits yet" +:+ Text.nl) r
  end.

(** Format ['%H---%s']. *)
Definition log_line (c : Commit) : string := sha c +:+ "---" +:+ subject c.

(** [git log --pretty=format:'%H---%s']: one line per commit of the current
    branch, most recent first. *)
Definition log_lines (r : Repo) : list string :=
  match current r with
  | Some h => log_line <$> h
  | None => []
  end.

(** [git checkout b]: switches to a local branch (also when a tag has the
    same name). *)
Definition checkout (b : string) (r : Repo) : Outcome * Repo :=
  match branches r !! b with
  | Some _ => ok "" (with_head b r)
  | None =>
      fail 1 ("error: pathspec '" +:+ b
              +:+ "' did not match any file(s) known to git" +:+ Text.nl) r
  end.

(** [git checkout -b b remote/branch]: creates [b] at a remote-tracking
    branch and switches to it. *)
Definition checkout_new (b rn rb : string) (r : Repo) : Outcome * Repo :=
  match branches r !! b with
  | Some _ =>
      fail 128 ("fatal: a branch named '" +:+ b +:+ "' already exists"
                +:+ Text.nl) r
  | None =>
      match remotes r !! rn ≫= fun rm => tracking rm !! rb with
      | Some h => ok "" (with_head b (with_branches (<[b:=h]> (branches r)) r))
      | None =>
          fail 128 ("fatal: '" +:+ rn +:+ "/" +:+ rb
                    +:+ "' is not a commit and a branch '" +:+ b
                    +:+ "' cannot be created from it" +:+ Text.nl) r
      end
  end.

(** [git remote]: the names of the registered remotes, one per line. *)
Definition remote_names (r : Repo) : list string := (map_to_list (remotes r)).*1.

(** [git remote add name url] *)
Definition remote_add (n u : string) (r : Repo) : Outcome * Repo :=
  match remotes r !! n with
  | Some _ =>
      fail 3 ("error: remote " +:+ n +:+ " already exists." +:+ Text.nl) r
  | None =>
      ok "" (with_remotes (<[n:={| url := u; tracking := ∅ |}]> (remotes r)) r)
  end.

(** [git config key value] *)
Definition config_set (k v : string) (r : Repo) : Outcome * Repo :=
  ok "" (with_config (<[k:=v]> (config r)) r).

Definition unreachable (n : string) : string :=
  "fatal: '" +:+ n +:+ "' does not appear to be a git repository" +:+ Text.nl.

(** [git fetch remote]: copies the branches of the hosted repository into
    the remote-tracking branches. *)
Definition fetch (n : string) (r : Repo) : Outcome * Repo :=
  match remotes r !! n with
  | None => fail 128 (unreachable n) r
  | Some rm =>
      match servers r !! url rm with
      | None => fail 128 (unreachable n) r
      | Some theirs =>
          ok "" (with_remotes
                   (<[n:={| url := url rm; tracking := theirs |}]> (remotes r)) r)
      end
  end.

(** [git pull remote branch]: fetches the branch and fast-forwards the
    current branch to it. *)
Definition pull (n b : string) (r : Repo) : Outcome * Repo :=
  match remotes r !! n with
  | None => fail 1 (unreachable n) r
  | Some rm =>
      match servers r !! url rm ≫= fun bs => bs !! b with
      | None =>
          fail 1 ("fatal: couldn't find remote ref " +:+ b +:+ Text.nl) r
      | Some theirs =>
          let r1 :=
            with_remotes
              (<[n:={| url := url rm; tracking := <[b:=theirs]> (tracking rm) |}]>
                 (remotes r)) r in
          match current r with
          | None => fail 128 ("fatal: no branch to merge into" +:+ Text.nl) r1
          | Some mine =>
              if bool_decide (mine `suffix_of` theirs)
              then ok "" (with_branches (<[head r:=theirs]> (branches r1)) r1)
              else if bool_decide (theirs `suffix_of` mine)
              then ok "" r1
              else fail 128
                     ("fatal: Need to specify how to reconcile divergent branches."
                      +:+ Text.nl) r1
          end
      end
  end.

(** [git push remote name]: the hosted branch of that name moves to the
    local one when that is a fast-forward.  A name that is a branch and a tag
    is refused; a name that is a tag only is pushed as a tag, which moves no
    branch. *)
Definition push (n b : string) (r : Repo) : Outcome * Repo :=
  match remotes r !! n with
  | None => fail 128 (unreachable n) r
  | Some rm =>
      match servers r !! url rm, branches r !! b with
      | None, _ => fail 128 (unreachable n) r
      | Some _, None =>
          if bool_decide (b ∈ tags r) then ok "" r
          else fail 1 ("error: src refspec " +:+ b +:+ " does not match any"
                       +:+ Text.nl) r
      | Some theirs, Some mine =>
          let pushed :=
            with_servers (<[url rm:=<[b:=mine]> theirs]> (servers r))
              (with_remotes
                 (<[n:={| url := url rm; tracking := <[b:=mine]> (tracking rm) |}]>
                    (remotes r)) r) in
          if bool_decide (b ∈ tags r)
          then fail 1 ("error: src refspec " +:+ b +:+ " matches more than one"
                       +:+ Text.nl) r
          else
            match theirs !! b with
            | None => ok "" pushed
            | Some old =>
                if bool_decide (old `suffix_of` mine) then ok "" pushed
                else fail 1 ("error: failed to push some refs to '" +:+ url rm
                             +:+ "'" +:+ Text.nl) r
            end
      end
  end.

(** The history that ends at the commit named [rev], searched in [h]. *)
Fixpoint from_sha (rev : string) (h : list Commit) : option (list Commit) :=
  match h with
  | [] => None
  | c :: h' => if String.eqb (sha c) rev then Some h else from_sha rev h'
  end.

Fixpoint first_from (rev : string) (hs : list (list Commit))
  : option (list Commit) :=
  match hs with
  | [] => None
  | h :: hs' =>
      match from_sha rev h with
      | Some found => Some found
      | None => first_from rev hs'
      end
  end.

Definition histories (r : Repo) : list (list Commit) :=
  (map_to_list (branches r)).*2
  ++ concat ((fun rm => (map_to_list (tracking rm.2)).*2) <$> map_to_list (remotes r)).

(** A revision: a full identifier, or nothing for [HEAD] (as in [A..]). *)
Definition resolve (rev : string) (r : Repo) : option (list Commit) :=
  if String.eqb rev "" then
    match current r with
    | Some (c :: h) => Some (c :: h)
    | _ => None
    end
  else first_from rev (histories r).

(** [a..b]: the commits reachable from [b] and not from [a], most recent
    first. *)
Definition range (ha hb : list Commit) : list Commit :=
  filter (fun c => sha c ∉ sha <$> ha) hb.

Definition tip (h : list Commit) : string :=
  match h with
  | c :: _ => sha c
  | [] => ""
  end.

(** Replays [picks] in order on [cur]; stops at the first commit whose
    replay stops, keeping what was replayed before it. *)
Fixpoint replay (r : Repo) (picks cur : list Commit) : bool * list Commit :=
  match picks with
  | [] => (true, cur)
  | c :: rest =>
      if bool_decide (sha c ∈ conflicts r) then (false, cur)
      else replay r rest
             ({| sha := object_id r (tip cur) c; subject := subject c |} :: cur)
  end.

(** [git cherry-pick -X theirs --allow-empty a..b]: replays the range, oldest
    commit first, on the current branch.  An empty range is an error of git
    (error: empty commit set passed).  A replay that stops leaves the branch
    with the commits replayed before, and the status is 1. *)
Definition cherry_pick (a b : string) (r : Repo) : Outcome * Repo :=
  match resolve a r, resolve b r, current r with
  | Some ha, Some hb, Some cur =>
      match reverse (range ha hb) with
      | [] =>
          fail 128 ("error: empty commit set passed" +:+ Text.nl
                    +:+ "fatal: cherry-pick failed" +:+ Text.nl) r
      | picks =>
          let '(complete, cur') := replay r picks cur in
          let r' := with_branches (<[head r:=cur']> (branches r)) r in
          if complete then ok "" r'
          else fail 1 ("error: could not apply a commit of the range"
                       +:+ Text.nl) r'
      end
  | _, _, _ =>
      fail 128 ("fatal: bad revision '" +:+ a +:+ ".." +:+ b +:+ "'"
                +:+ Text.nl) r
  end.

End Git.

(** ** Shell: the command lines the script passes to [exec]

    Every command line of the script is a constructor, [render] gives the
    text the script builds, and [run] what it does to the repository.  A
    chain [a && b] stops at the first command that fails.

    The script pastes two kinds of text into its command lines: the name
    searched for, between double quotes, and the two identifiers of the
    cherry-pick, bare.  [run] reads them as the shell and grep do when the
    name is plain ([Grep.plain]) and the identifiers are hexadecimal; other
    texts are outside the model, and the statements about what a search
    finds assume a plain name. *)

Module Shell.
Import Git.

Inductive Format := HashSubject | SubjectOnly.

Inductive Cmd :=
| RevParseHead
| Log1 (f : Format)
| LogGrepWord (name : string)
| Checkout (b : string) (quiet : bool)
| CheckoutNew (b rn rb : string)
| RemoteGrep (pat : string)
| RemoteAdd (n u : string)
| ConfigSet (k v : string)
| Fetch (n : string)
| Pull (n b : string)
| CherryPick (a b : string)
| Push (n b : string).

#[global] Instance Format_eq_dec : EqDecision Format.
Proof. solve_decision. Defined.

#[global] Instance Cmd_eq_dec : EqDecision Cmd.
Proof. solve_decision. Defined.

Definition render (c : Cmd) : string :=
  match c with
  | RevParseHead => "git rev-parse --abbrev-ref HEAD"
  | Log1 HashSubject => "git log -1 --pretty=format:'%H---%s' --abbrev-commit"
  | Log1 SubjectOnly =>
      "git log -1 --pretty=format:" +:+ Text.dq +:+ "%s" +:+ Text.dq
      +:+ " --abbrev-commit"
  | LogGrepWord name =>
      "git log --pretty=format:'%H---%s' | grep -w "
      +:+ Text.dq +:+ name +:+ Text.dq
  | Checkout b quiet =>
      "git checkout " +:+ b +:+ (if quiet then " --quiet" else "")
  | CheckoutNew b rn rb => "git checkout -b " +:+ b +:+ " " +:+ rn +:+ "/" +:+ rb
  | RemoteGrep pat => "git remote | grep " +:+ pat
  | RemoteAdd n u => "git remote add " +:+ n +:+ " " +:+ u
  | ConfigSet k v => "git config " +:+ k +:+ " " +:+ v
  | Fetch n => "git fetch " +:+ n
  | Pull n b => "git pull " +:+ n +:+ " " +:+ b
  | CherryPick a b =>
      "git cherry-pick -X theirs --allow-empty " +:+ a +:+ ".." +:+ b
  | Push n b => "git push " +:+ n +:+ " " +:+ b
  end.

(** [commands.join(' && ')] *)
Definition render_chain (cs : list Cmd) : string :=
  Text.join " && " (render <$> cs).

(** [... | grep]: prints the selected lines; the status of the pipeline is
    the status of grep, 1 when no line is selected. *)
Definition grep (keep : string -> bool) (lines : list string) (r : Repo)
  : Outcome * Repo :=
  match List.filter keep lines with
  | [] => fail 1 "" r
  | selected => ok (Text.unlines selected) r
  end.

Definition format (f : Format) : Commit -> string :=
  match f with
  | HashSubject => log_line
  | SubjectOnly => subject
  end.

Definition run (c : Cmd) (r : Repo) : Outcome * Repo :=
  match c with
  | RevParseHead => rev_parse_head r
  | Log1 f => log1 (format f) r
  | LogGrepWord name => grep (Grep.selects_word name) (log_lines r) r
  | Checkout b _ => checkout b r
  | CheckoutNew b rn rb => checkout_new b rn rb r
  | RemoteGrep pat => grep (Grep.selects pat) (remote_names r) r
  | RemoteAdd n u => remote_add n u r
  | ConfigSet k v => config_set k v r
  | Fetch n => fetch n r
  | Pull n b => pull n b r
  | CherryPick a b => cherry_pick a b r
  | Push n b => push n b r
  end.

Fixpoint run_chain (cs : list Cmd) (r : Repo) : Outcome * Repo :=
  match cs with
  | [] => ok "" r
  | c :: rest =>
      let '(o, r1) := run c r in
      if Nat.eqb (status o) 0 then
        let '(o', r2) := run_chain rest r1 in
        ({| status := status o';
            stdout := stdout o +:+ stdout o';
            stderr := stderr o +:+ stderr o' |}, r2)
      else (o, r1)
  end.

End Shell.

(** ** tasks/rebaseWebClient *)

Module RebaseWebClient.
Import Git Shell.

(** [new Error(message)] and the errors [exec] rejects with. *)
Record Error := { message : string }.

(** Result of awaiting a promise. *)
Inductive Result (A : Type) :=
| Ok (a : A)
| Throw (e : Error).
Arguments Ok {A} a.
Arguments Throw {A} e.

(** chalk: a text and the colour it is printed in. *)
Inductive Style := Plain | Green | Yellow | Red | MagentaBright | Orange.

#[global] Instance Style_eq_dec : EqDecision Style.
Proof. solve_decision. Defined.

(** What the process can change: the repository, through the commands it
    ran ([trace], in order), the lines written with [console.log], the
    output of the children piped to its own streams, and its exit status
    once [process.exit] was called. *)
Record World := {
  repo : Repo;
  trace : list (list Cmd);
  console : list (list (Style * string));
  piped : list string;
  exit_code : option nat
}.

(** An [async] function: it reads and changes the world, and resolves or
    rejects.  Commands are awaited one after the other. *)
Definition M (A : Type) : Type := World -> Result A * World.

#[global] Instance M_ret : MRet M := fun A a w => (Ok a, w).

#[global] Instance M_bind : MBind M := fun A B f m w =>
  match m w with
  | (Ok a, w1) => f a w1
  | (Throw e, w1) => (Throw e, w1)
  end.

Definition throw {A : Type} (e : Error) : M A := fun w => (Throw e, w).

(** [try { body } catch (e) { handler }] *)
Definition try_catch {A : Type} (body : M A) (handler : Error -> M A) : M A :=
  fun w =>
    match body w with
    | (Ok a, w1) => (Ok a, w1)
    | (Throw e, w1) => handler e w1
    end.

Definition console_log (line : list (Style * string)) : M unit := fun w =>
  (Ok (),
   {| repo := repo w; trace := trace w; console := console w ++ [line];
      piped := piped w; exit_code := exit_code w |}).

(** [process.exit(code)] *)
Definition process_exit (code : nat) : M unit := fun w =>
  (Ok (),
   {| repo := repo w; trace := trace w; console := console w;
      piped := piped w; exit_code := Some code |}).

(** The error of a child that ended with a non-zero status. *)
Definition command_failed (command : list Cmd) (o : Outcome) : Error :=
  {| message :=
       "Command failed: " +:+ render_chain command +:+ Text.nl +:+ stderr o |}.

(** [promisify(child_process.exec)]: resolves with the standard output of
    the command, rejects when its status is not 0.  The output is taken to
    stay below [maxBuffer], and the child to end by itself. *)
Definition exec (command : list Cmd) : M string := fun w =>
  let '(o, r) := run_chain command (repo w) in
  let w' := {| repo := r; trace := trace w ++ [command]; console := console w;
               piped := piped w; exit_code := exit_code w |} in
  if Nat.eqb (status o) 0 then (Ok (stdout o), w')
  else (Throw (command_failed command o), w').

Definition success (msg : string) : M unit :=
  console_log [(Green, "✓"); (Plain, " " +:+ msg +:+ ".")].

(** Same as [exec], with the output of the child piped to the terminal and
    nothing returned. *)
Definition commandeVerbose (command : list Cmd) : M unit := fun w =>
  let '(o, r) := run_chain command (repo w) in
  let w' := {| repo := r; trace := trace w ++ [command]; console := console w;
               piped := piped w ++ [stdout o; stderr o];
               exit_code := exit_code w |} in
  if Nat.eqb (status o) 0 then (Ok (), w')
  else (Throw (command_failed command o), w').

(** [{ hash, label }] *)
Record ReleasePointer := { hash : string; label : string }.

Definition getLatestCommit : M ReleasePointer :=
  stdout ← exec [Log1 HashSubject];
  let output := Text.item 0 (Text.split Text.nl (Text.stripAnsi stdout)) in
  let parts := Text.split "---" output in
  mret {| hash := Text.item 0 parts; label := Text.item 1 parts |}.

Definition getCommitByName (name : Js.Val) : M ReleasePointer :=
  stdout ← exec [LogGrepWord (Js.template name)];
  let output := Text.item 0 (Text.split Text.nl (Text.stripAnsi stdout)) in
  let parts := Text.split "---" output in
  mret {| hash := Text.item 0 parts; label := Text.item 1 parts |}.

Definition getWebclientRelease : M ReleasePointer :=
  let commands := [Checkout "public" true; Log1 SubjectOnly] in
  stdout ← exec commands;
  exec [Checkout "v3" true];;
  let output := Text.item 0 (Text.split Text.nl (Text.stripAnsi stdout)) in
  getCommitByName (Js.Str output).

Definition isDeployAbleBranch : M unit :=
  stdout ← exec [RevParseHead];
  let output := Text.item 0 (Text.split Text.nl (Text.stripAnsi stdout)) in
  if negb (String.eqb output "v3")
  then throw {| message := "You must be on V3 to sync the webclient" |}
  else mret ().

Definition addPublicRemote : M unit :=
  let commands :=
    ([RemoteAdd "webclient" "git@github.com:ProtonMail/WebClient.git"]
     ++ [ConfigSet "remote.webclient.push" "upstream"]
     ++ [Fetch "webclient"]
     ++ [CheckoutNew "public" "webclient" "public"])%list in
  exec commands;;
  success "Add public remote".

Definition hasPublicRemote : M unit :=
  try_catch
    (exec [RemoteGrep "webclient"];;
     success "Public remote exists")
    (fun e => addPublicRemote).

Definition syncWebclient (webclientRelease latestRelease : ReleasePointer)
  : M unit :=
  let webclientHash := hash webclientRelease in
  let latestHash := hash latestRelease in
  let commands :=
    [Checkout "v3" false; Pull "origin" "v3";
     Checkout "public" false; Pull "webclient" "public"] in
  commandeVerbose commands;;
  commandeVerbose [CherryPick webclientHash latestHash];;
  exec [Push "webclient" "public"];;
  exec [Checkout "v3" true];;
  success "Sync webclient".

(** The text of [help], after dedent removed the indentation of eight spaces
    and the blank lines around the text.  The pieces in colour are the texts
    chalk receives, on a terminal that shows colours; where chalk leaves its
    text as it is, dedent also removes the space that starts the first
    piece. *)
Definition help_msg : list (Style * string) :=
  [ (Yellow, Text.toUpperCase " ⟞ How to use the command ?");
    (Plain,
     Text.nl +:+ Text.join Text.nl
       [ "";
         "This command will sync the Private repository and the public repository";
         "    ➙ $ ./tasks/rebaseWebClient --tag=3.12.24";
         "                    or";
         "    ➙ $ ./tasks/rebaseWebClient";
         "";
         "    - With the flag tag, you can deploy to webclient only commits until this tag";
         "    - Without you deploy commits until the latest available on Angular (ex: post release)";
         "";
         "";
         "" ]);
    (Orange, Text.toUpperCase " ⚠⚠⚠ Warning ⚠⚠⚠");
    (Plain,
     Text.nl +:+ Text.join Text.nl
       [ "";
         "You will need if it fails to run until it's done.";
         "cherry-pick can be a long task with some conflicts to resolve (rm/add)";
         "    $ git cherry-pick --continue";
         "    $ git push webclient public";
         "    $ git checkout v3" ]) ].

Definition help : M unit := console_log help_msg.

(** [JSON.stringify({ angularRelease, webclientRelease }, null, 2)] *)
Definition json_pointer (p : ReleasePointer) : list string :=
  [ "{";
    "    " +:+ Text.json_string "hash" +:+ ": " +:+ Text.json_string (hash p) +:+ ",";
    "    " +:+ Text.json_string "label" +:+ ": " +:+ Text.json_string (label p);
    "  }" ].

Definition json_releases (angularRelease webclientRelease : ReleasePointer)
  : string :=
  Text.join Text.nl
    [ "{";
      "  " +:+ Text.json_string "angularRelease" +:+ ": "
        +:+ Text.join Text.nl (json_pointer angularRelease) +:+ ",";
      "  " +:+ Text.json_string "webclientRelease" +:+ ": "
        +:+ Text.join Text.nl (json_pointer webclientRelease);
      "}" ].

(** [argv]: the command line as minimist parsed it. *)
Record Argv := { argv_tag : Js.Val; argv_help : Js.Val }.

Section Script.

Variable argv : Argv.

Definition getAngularRelease (name : Js.Val) : M ReleasePointer :=
  if Js.truthy name then getCommitByName (argv_tag argv)
  else getLatestCommit.

(** Body of the [try] block. *)
Definition workflow : M unit :=
  isDeployAbleBranch;;
  hasPublicRemote;;
  angularRelease ← getAngularRelease (argv_tag argv);
  webclientRelease ← getWebclientRelease;
  console_log [];;
  console_log [(Plain, json_releases angularRelease webclientRelease)];;
  console_log [];;
  syncWebclient webclientRelease angularRelease;;
  process_exit 0.

(** Body of the [catch] block. *)
Definition report (e : Error) : M unit :=
  console_log [(MagentaBright, " ⚠ "); (Plain, " "); (Red, message e)];;
  console_log [];;
  help;;
  process_exit 1.

(** The two statements at the end of the script. *)
Definition main (w : World) : World :=
  let w1 := if Js.truthy (argv_help argv) then (help w).2 else w in
  if negb (Js.truthy (argv_help argv))
  then (try_catch workflow report w1).2
  else w1.

End Script.

(** *** Vocabulary of the statements *)

(** A commit as git stores it: a non-empty hexadecimal identifier and a
    subject of printable characters on one line. *)
Definition wf_commit (c : Commit) : bool :=
  negb (String.eqb (sha c) "") && Text.all Text.hex (sha c)
  && Text.all Text.printable (subject c).

(** Every local branch holds such commits. *)
Definition tidy (r : Repo) : Prop :=
  map_Forall (fun _ h => forallb wf_commit h = true) (branches r).

(** The subject up to its first [---]. *)
Definition before_dashes (subject : string) : string :=
  Text.item 0 (Text.split "---" subject).

(** What the script reads on the line [hash---subject] of a commit. *)
Definition pointer_read (c : Commit) : ReleasePointer :=
  {| hash := sha c; label := before_dashes (subject c) |}.

(** The release pointer of a commit: its identifier and its subject. *)
Definition pointer_of (c : Commit) : ReleasePointer :=
  {| hash := sha c; label := subject c |}.

(** No subject holds three dashes in a row. *)
Definition dashless (h : list Commit) : bool :=
  forallb (fun c => negb (Text.contains "---" (subject c))) h.

(** The subject of [c] holds [name] as a whole word, the way [grep -w]
    finds words. *)
Definition mentions (name : string) (c : Commit) : bool :=
  Grep.selects_word name (subject c).

(** The most recent commit of [h] whose line [hash---subject] is selected by
    [grep -w name]. *)
Definition most_recent_match (name : string) (h : list Commit) : option Commit :=
  List.find (fun c => Grep.selects_word name (log_line c)) h.

(** The world once [commands] were run and left the repository [r]. *)
Definition after (commands : list (list Cmd)) (r : Repo) (w : World) : World :=
  {| repo := r; trace := trace w ++ commands; console := console w;
     piped := piped w; exit_code := exit_code w |}.

(** The command line of [addPublicRemote]. *)
Definition bootstrap : list Cmd :=
  [RemoteAdd "webclient" "git@github.com:ProtonMail/WebClient.git";
   ConfigSet "remote.webclient.push" "upstream";
   Fetch "webclient";
   CheckoutNew "public" "webclient" "public"].

(** The remote-existence check of [hasPublicRemote] succeeds in [r]. *)
Definition remote_found (r : Repo) : bool :=
  Nat.eqb (status (run (RemoteGrep "webclient") r).1) 0.

(** The error of [isDeployAbleBranch]. *)
Definition wrong_branch : Error :=
  {| message := "You must be on V3 to sync the webclient" |}.

(** The outcome of a filter that selected nothing. *)
Definition nothing_selected : Outcome :=
  {| status := 1; stdout := ""; stderr := "" |}.

(** The line [report] prints for an error. *)
Definition error_line (e : Error) : list (Style * string) :=
  [(MagentaBright, " ⚠ "); (Plain, " "); (Red, message e)].

(** A line of the console is the line of an error: the warning sign, then
    a message in red. *)
Definition is_error_line (line : list (Style * string)) : bool :=
  bool_decide (line.*1 = [MagentaBright; Plain; Red]).

(** The characters of a line of the console, without the colours. *)
Definition shown (line : list (Style * string)) : string :=
  foldr (fun piece rest => piece.2 +:+ rest) "" line.

(** The world once [report e] ran in [w]: the error, an empty line and the
    help text are printed and the exit status is 1. *)
Definition reported (e : Error) (w : World) : World :=
  {| repo := repo w; trace := trace w;
     console := console w ++ [error_line e; []; help_msg];
     piped := piped w; exit_code := Some 1 |}.

(** The error of [exec] for [git rev-parse --abbrev-ref HEAD] on a branch
    without commits. *)
Definition no_commit_yet : Error :=
  {| message :=
       "Command failed: git rev-parse --abbrev-ref HEAD" +:+ Text.nl
       +:+ unknown_head |}.

(** The four command lines of [syncWebclient], for two releases. *)
Definition sync_lines (webclientRelease latestRelease : ReleasePointer)
  : list (list Cmd) :=
  [ [Checkout "v3" false; Pull "origin" "v3";
     Checkout "public" false; Pull "webclient" "public"];
    [CherryPick (hash webclientRelease) (hash latestRelease)];
    [Push "webclient" "public"];
    [Checkout "v3" true] ].

(** The four lines printed by a run that completes: the two releases
    between two empty lines, then the line of [success]. *)
Definition completion_lines (angularRelease webclientRelease : ReleasePointer)
  : list (list (Style * string)) :=
  [ []; [(Plain, json_releases angularRelease webclientRelease)]; [];
    [(Green, "✓"); (Plain, " Sync webclient.")] ].

(** Why a run stopped with the error [e]: it is the error that
    [isDeployAbleBranch] throws, or the last command line the script ran
    ended with a status other than 0, and that line is not the check of
    [hasPublicRemote]. *)
Definition stopped_by (e : Error) (w : World) : Prop :=
  e = wrong_branch
  \/ exists cs o,
      last (trace w) = Some cs /\ cs <> [RemoteGrep "webclient"]
      /\ status o <> 0 /\ e = command_failed cs o.

End RebaseWebClient.

(** ** The protonLoader directive *)

Module ProtonLoader.

(** The two callbacks the listener hands to [_rAF]. *)
Inductive Callback :=
| ClassListAdd (token : string)
| ClassListRemove (token : string).

(** The loader element [el[0]] and the callbacks waiting for the next
    animation frame, oldest first. *)
Record Page := {
  classList : gset string;
  waiting : list Callback
}.

(** [_rAF] is a global of the application that this file uses and does not
    define; it is taken to be [requestAnimationFrame]: the callback is queued
    and runs once, at the next animation frame. *)
Definition _rAF (cb : Callback) (p : Page) : Page :=
  {| classList := classList p; waiting := waiting p ++ [cb] |}.

(** [classList.add(token)] and [classList.remove(token)] *)
Definition call (tokens : gset string) (cb : Callback) : gset string :=
  match cb with
  | ClassListAdd token => {[token]} ∪ tokens
  | ClassListRemove token => tokens ∖ {[token]}
  end.

(** The browser reaches an animation frame: the waiting callbacks run in the
    order they were queued. *)
Definition animation_frame (p : Page) : Page :=
  {| classList := foldl call (classList p) (waiting p); waiting := [] |}.

(** The listener registered with [$rootScope.$on('networkActivity', ...)],
    called with the type the event was emitted with. *)
Definition on_networkActivity (type : Js.Val) (p : Page) : Page :=
  let p1 := if Js.is_str type "load" then _rAF (ClassListAdd "show") p else p in
  if Js.is_str type "close" then _rAF (ClassListRemove "show") p1 else p1.

End ProtonLoader.

(** ** env/conf.build.js *)

Module ConfBuild.

Definition bindPrefix (name : string) : string := "node_modules/" +:+ name.

Record ExternalFiles := {
  openpgp : list string;
  manifest : list string
}.

Record VendorFiles := {
  js : list string;
  jsLazy : list string;
  jsLazy2 : list string;
  css : list string;
  fonts : list string;
  sass_include_dirs : list string
}.

Record Exports := {
  external_files : ExternalFiles;
  vendor_files : VendorFiles
}.

Definition module_exports : Exports := {|
  external_files := {|
    openpgp :=
      bindPrefix <$> ["openpgp/dist/openpgp.worker.min.js"; "openpgp/dist/openpgp.min.js"];
    manifest := ["manifest.json"]
  |};
  vendor_files := {|
    js := bindPrefix <$> [
      "jquery/dist/jquery.js";
      "jquery.payment/lib/jquery.payment.js";
      "fastclick/lib/fastclick.js";
      "angular/angular.js";
      "bootstrap-sass/assets/javascripts/bootstrap.js";
      "autofill-event/src/autofill-event.js";
      "angular-cookies/angular-cookies.js";
      "angular-ui-router/release/angular-ui-router.js";
      "angular-sanitize/angular-sanitize.js";
      "angular-notify/dist/angular-notify.js";
      "oclazyload/dist/ocLazyLoad.js";
      "html2canvas/dist/html2canvas.js";
      "svg4everybody/dist/svg4everybody.js";
      "angular-messages/angular-messages.js";
      "mousetrap/mousetrap.js";
      "mousetrap-pause/mousetrap-pause.js";
      "angular-gettext/dist/angular-gettext.js";
      "fingerprintjs2/fingerprint2.js";
      "bcryptjs/dist/bcrypt.js";
      "nouislider/distribute/nouislider.js";
      "ua-parser-js/src/ua-parser.js";
      "intl-tel-input/build/js/intlTelInput.js";
      "intl-tel-input/build/js/utils.js";
      "ng-intl-tel-input/dist/ng-intl-tel-input.js";
      "hi-base32/build/base32.min.js";
      "cssuseragent/cssua.js";
      "asmcrypto.js/asmcrypto.js";
      "babel-polyfill/dist/polyfill.js";
      "pmcrypto/build/pmcrypto.js";
      "dompurify/dist/purify.js";
      "bootstrap-sass/assets/javascripts/bootstrap.js"
    ];
    jsLazy := bindPrefix <$> [
      "moment/min/moment-with-locales.js";
      "moment-timezone/builds/moment-timezone-with-data.js";
      "papaparse/papaparse.js";
      "ng-sortable/dist/ng-sortable.js";
      "pikaday/pikaday.js";
      "ng-pikaday/ng-pikaday.js";
      "jquery-timepicker/jquery.timepicker.js";
      "squire-rte/build/squire-raw.js";
      "dropzone/dist/dropzone.js";
      "ical.js/build/ical.js";
      "angular-ical/dist/js/angular-ical.js";
      "push.js/push.js";
      "awesomplete/awesomplete.js";
      "angular-ui-indeterminate/dist/indeterminate.js";
      "jquery-mousewheel/jquery.mousewheel.js";
      "malihu-custom-scrollbar-plugin/jquery.mCustomScrollbar.js";
      "ng-scrollbars/dist/scrollbars.min.js";
      "sieve.js/sieve.js";
      "blob.js/Blob.js";
      "file-saver/FileSaver.js";
      "qrcodejs2/qrcode.min.js";
      "pt.mailparser/mailparser.js";
      "markdown-it/dist/markdown-it.min.js";
      "clipboard/dist/clipboard.js";
      "angular-vs-repeat/src/angular-vs-repeat.js";
      "vcf/dist/vcard.js";
      "jszip/dist/jszip.min.js"
    ];
    jsLazy2 := bindPrefix <$> [
      "codemirror/lib/codemirror.js";
      "codemirror/addon/display/autorefresh.js";
      "codemirror/mode/sieve/sieve.js";
      "codemirror/addon/lint/lint.js";
      "angular-ui-codemirror/dist/ui-codemirror.min.js"
    ];
    css := bindPrefix <$> [
      "ng-sortable/dist/ng-sortable.css";
      "angular-notify/dist/angular-notify.css";
      "pikaday/css/pikaday.css";
      "dropzone/dist/dropzone.css";
      "awesomplete/awesomplete.css";
      "nouislider/distribute/nouislider.css";
      "malihu-custom-scrollbar-plugin/jquery.mCustomScrollbar.css";
      "codemirror/lib/codemirror.css";
      "codemirror/addon/lint/lint.css"
    ];
    fonts := bindPrefix <$> ["components-font-awesome/fonts/*"];
    sass_include_dirs :=
      bindPrefix <$> ["bourbon/dist"; "bootstrap-sass-official/assets/stylesheets"]
  |}
|}.

End ConfBuild.

(** ** Sample repositories, used to run the definitions *)

Module Sample.
Import Git Shell RebaseWebClient.

(** A full identifier made of a four-digit pattern. *)
Definition id (p : string) : string :=
  p +:+ p +:+ p +:+ p +:+ p +:+ p +:+ p +:+ p +:+ p +:+ p.

Definition c1 : Commit := {| sha := id "a1a1"; subject := "Initial import" |}.
Definition c2 : Commit := {| sha := id "b2b2"; subject := "Release 3.12.23" |}.
Definition c3 : Commit := {| sha := id "c3c3"; subject := "Add contact export" |}.
Definition c4 : Commit := {| sha := id "abcd"; subject := "Release 3.12.24: fixes" |}.
Definition c5 : Commit := {| sha := id "e5e5"; subject := "Fix typo in composer" |}.

(** The same two first commits, as they were replayed on the mirror. *)
Definition p1 : Commit := {| sha := id "1f1f"; subject := "Initial import" |}.
Definition p2 : Commit := {| sha := id "2f2f"; subject := "Release 3.12.23" |}.

(** A first release, numbered 0. *)
Definition c0 : Commit := {| sha := id "0a0a"; subject := "Release 0" |}.

(** A later commit that writes the number of a release with dashes. *)
Definition c7 : Commit := {| sha := id "dada"; subject := "Notes for Release 3-12-23 sent" |}.

(** A subject with three dashes in it, on both sides. *)
Definition c6 : Commit := {| sha := id "d6d6"; subject := "Fix the composer --- again" |}.
Definition p6 : Commit := {| sha := id "6f6f"; subject := "Fix the composer --- again" |}.

Definition v3_history : list Commit := [c5; c4; c3; c2; c1].
Definition public_history : list Commit := [p2; p1].

Definition origin_url : string := "git@github.com:ProtonMail/Angular.git".
Definition webclient_url : string := "git@github.com:ProtonMail/WebClient.git".

(** The identifier of a replayed commit: here its first digit becomes 9. *)
Definition replayed_id (parent : string) (c : Commit) : string :=
  "9" +:+ String.substring 1 39 (sha c).

(** A clone on [branch] where the mirror is set up and both sides are up to
    date. *)
Definition clone (branch : string) (v3 public : list Commit) : Repo := {|
  head := branch;
  branches := <["public":=public]> (<["v3":=v3]> ∅);
  remotes :=
    <["webclient":={| url := webclient_url;
                      tracking := <["public":=public]> ∅ |}]>
      (<["origin":={| url := origin_url; tracking := <["v3":=v3]> ∅ |}]> ∅);
  config := <["remote.webclient.push":="upstream"]> ∅;
  servers :=
    <[webclient_url:=<["public":=public]> ∅]>
      (<[origin_url:=<["v3":=v3]> ∅]> ∅);
  tags := ∅;
  conflicts := ∅;
  object_id := replayed_id
|}.

(** A fresh clone: only [origin] is known. *)
Definition fresh_clone : Repo := {|
  head := "v3";
  branches := <["v3":=v3_history]> ∅;
  remotes := <["origin":={| url := origin_url; tracking := <["v3":=v3_history]> ∅ |}]> ∅;
  config := ∅;
  servers :=
    <[webclient_url:=<["public":=public_history]> ∅]>
      (<[origin_url:=<["v3":=v3_history]> ∅]> ∅);
  tags := ∅;
  conflicts := ∅;
  object_id := replayed_id
|}.

(** Both sides end with the commit whose subject holds three dashes. *)
Definition dashed_clone : Repo :=
  clone "v3" (c6 :: v3_history) (p6 :: public_history).

Definition start (r : Repo) : World :=
  {| repo := r; trace := []; console := []; piped := []; exit_code := None |}.

Definition no_flags : Argv := {| argv_tag := Js.Undefined; argv_help := Js.Undefined |}.

Definition with_tag (t : string) : Argv :=
  {| argv_tag := Js.Str t; argv_help := Js.Undefined |}.

End Sample.

(** ** Notions used to state how the functions behave together *)

Module Behaviour.
Import Git Shell RebaseWebClient ProtonLoader.

(** The first command line of [syncWebclient], and its push. *)
Definition prepare : list Cmd :=
  [Checkout "v3" false; Pull "origin" "v3";
   Checkout "public" false; Pull "webclient" "public"].

Definition push_line : list Cmd := [Push "webclient" "public"].

(** The world once [success msg] printed its line. *)
Definition said (msg : string) (w : World) : World := (success msg w).2.

(** The address [addPublicRemote] registers. *)
Definition mirror_url : string := "git@github.com:ProtonMail/WebClient.git".

(** [m] rejects only with an error that stops the run for a stated reason. *)
Definition rejects_stopped {A : Type} (m : M A) : Prop :=
  forall w e w1, m w = (Throw e, w1) -> stopped_by e w1.

(** The listener called for each event of a list, oldest first. *)
Definition deliver (types : list Js.Val) (p : Page) : Page :=
  foldl (fun p type => on_networkActivity type p) p types.

(** Whether the loader is shown after the events [types], when it was
    [shown] before: the last [load] or [close] decides. *)
Definition shown_after (types : list Js.Val) (shown : bool) : bool :=
  foldl (fun shown type =>
           if Js.is_str type "load" then true
           else if Js.is_str type "close" then false
           else shown)
    shown types.

(** A fresh clone that cannot reach the mirror. *)
Definition offline_clone : Repo := {|
  head := "v3";
  branches := <["v3":=Sample.v3_history]> ∅;
  remotes :=
    <["origin":={| url := Sample.origin_url;
                   tracking := <["v3":=Sample.v3_history]> ∅ |}]> ∅;
  config := ∅;
  servers := <[Sample.origin_url:=<["v3":=Sample.v3_history]> ∅]> ∅;
  tags := ∅;
  conflicts := ∅;
  object_id := Sample.replayed_id
|}.

(** A clone whose only other remote is a fork, named [webclient-fork]. *)
Definition fork_clone : Repo := {|
  head := "v3";
  branches := <["v3":=Sample.v3_history]> ∅;
  remotes :=
    <["webclient-fork":={| url := "git@github.com:someone/WebClient.git";
                           tracking := ∅ |}]>
      (<["origin":={| url := Sample.origin_url;
                      tracking := <["v3":=Sample.v3_history]> ∅ |}]> ∅);
  config := ∅;
  servers := <[Sample.origin_url:=<["v3":=Sample.v3_history]> ∅]> ∅;
  tags := ∅;
  conflicts := ∅;
  object_id := Sample.replayed_id
|}.

(** A clone on a branch of its own, [feature-x], one commit ahead of [v3]. *)
Definition c8 : Commit :=
  {| sha := Sample.id "f8f8"; subject := "Try a new composer" |}.

Definition feature_clone : Repo := {|
  head := "feature-x";
  branches :=
    <["feature-x":=c8 :: Sample.v3_history]>
      (branches (Sample.clone "v3" Sample.v3_history Sample.public_history));
  tags := ∅;
  remotes := remotes (Sample.clone "v3" Sample.v3_history Sample.public_history);
  config := config (Sample.clone "v3" Sample.v3_history Sample.public_history);
  servers := servers (Sample.clone "v3" Sample.v3_history Sample.public_history);
  conflicts := ∅;
  object_id := Sample.replayed_id
|}.

(** A clone after [git checkout --orphan feature-x]: the branch checked out
    has no commit yet. *)
Definition orphan_clone : Repo :=
  with_head "feature-x"
    (Sample.clone "v3" Sample.v3_history Sample.public_history).

(** A clone on [v3] where a tag is named [v3] too. *)
Definition tagged_clone : Repo := {|
  head := "v3";
  branches := branches (Sample.clone "v3" Sample.v3_history Sample.public_history);
  tags := {[ "v3" ]};
  remotes := remotes (Sample.clone "v3" Sample.v3_history Sample.public_history);
  config := config (Sample.clone "v3" Sample.v3_history Sample.public_history);
  servers := servers (Sample.clone "v3" Sample.v3_history Sample.public_history);
  conflicts := ∅;
  object_id := Sample.replayed_id
|}.

(** A clone whose mirror already ends with the last commit of [v3]. *)
Definition p5 : Commit :=
  {| sha := Sample.id "5f5f"; subject := "Fix typo in composer" |}.

Definition up_to_date_clone : Repo :=
  Sample.clone "v3" Sample.v3_history [p5; Sample.p2; Sample.p1].

(** A clone where the replay of the release commit stops on a conflict. *)
Definition conflicting_clone : Repo := {|
  head := "v3";
  branches := branches (Sample.clone "v3" Sample.v3_history Sample.public_history);
  remotes := remotes (Sample.clone "v3" Sample.v3_history Sample.public_history);
  config := config (Sample.clone "v3" Sample.v3_history Sample.public_history);
  servers := servers (Sample.clone "v3" Sample.v3_history Sample.public_history);
  tags := ∅;
  conflicts := {[ sha Sample.c4 ]};
  object_id := Sample.replayed_id
|}.

End Behaviour.

(** * Properties *)

Import Git Shell RebaseWebClient Behaviour.

(** ** The command lines, as the script writes them *)

Section CommandLines.

Example line_getLatestCommit :
  render_chain [Log1 HashSubject]
  = "git log -1 --pretty=format:'%H---%s' --abbrev-commit".
Proof. reflexivity. Qed.

Example line_getCommitByName (name : string) :
  render_chain [LogGrepWord name]
  = "git log --pretty=format:'%H---%s' | grep -w " +:+ Text.dq +:+ name +:+ Text.dq.
Proof. reflexivity. Qed.

Example line_getWebclientRelease :
  render_chain [Checkout "public" true; Log1 SubjectOnly]
  = "git checkout public --quiet && git log -1 --pretty=format:"
    +:+ Text.dq +:+ "%s" +:+ Text.dq +:+ " --abbrev-commit"
  /\ render_chain [Checkout "v3" true] = "git checkout v3 --quiet".
Proof. split; reflexivity. Qed.

Example line_isDeployAbleBranch :
  render_chain [RevParseHead] = "git rev-parse --abbrev-ref HEAD".
Proof. reflexivity. Qed.

Example line_addPublicRemote :
  render_chain bootstrap
  = "git remote add webclient git@github.com:ProtonMail/WebClient.git"
    +:+ " && git config remote.webclient.push upstream"
    +:+ " && git fetch webclient"
    +:+ " && git checkout -b public webclient/public".
Proof. reflexivity. Qed.

Example line_hasPublicRemote :
  render_chain [RemoteGrep "webclient"] = "git remote | grep webclient".
Proof. reflexivity. Qed.

Example lines_syncWebclient (webclientHash latestHash : string) :
  render_chain [Checkout "v3" false; Pull "origin" "v3";
                Checkout "public" false; Pull "webclient" "public"]
  = "git checkout v3 && git pull origin v3 && git checkout public"
    +:+ " && git pull webclient public"
  /\ render_chain [CherryPick webclientHash latestHash]
     = "git cherry-pick -X theirs --allow-empty " +:+ webclientHash +:+ ".."
       +:+ latestHash
  /\ render_chain [Push "webclient" "public"] = "git push webclient public".
Proof. split_and!; reflexivity. Qed.

(** [split], the two filters and strip-ansi on small inputs. *)
Example split_examples :
  Text.split "---" "abcd---Release 3.12.24: fixes" = ["abcd"; "Release 3.12.24: fixes"]
  /\ Text.split "---" "a---b---c" = ["a"; "b"; "c"]
  /\ Text.split "---" "" = [""]
  /\ Text.split Text.nl ("v3" +:+ Text.nl) = ["v3"; ""].
Proof. split_and!; reflexivity. Qed.

Example grep_examples :
  Grep.selects_word "3.12.24" "abcd---Release 3.12.24: fixes" = true
  /\ Grep.selects_word "fix" "abcd---prefix fixes" = false
  /\ Grep.selects_word "fix" "abcd---a fix-up" = true
  /\ Grep.selects "webclient" "my-webclient-fork" = true
  /\ Grep.selects "webclient" "origin" = false.
Proof. split_and!; reflexivity. Qed.

Example stripAnsi_example :
  Text.stripAnsi (Text.char 27 +:+ "[32mv3" +:+ Text.char 27 +:+ "[0m") = "v3".
Proof. reflexivity. Qed.

End CommandLines.

(** ** Text *)

Section TextFacts.

Lemma append_cons (c : Ascii.ascii) (s t : string) :
  String c s +:+ t = String c (s +:+ t).
Proof. reflexivity. Qed.

Lemma append_empty_r (s : string) : s +:+ "" = s.
Proof. induction s as [|c s IH]; [done | by rewrite append_cons, IH]. Qed.

Lemma append_assoc (a b c : string) : (a +:+ b) +:+ c = a +:+ (b +:+ c).
Proof. induction a as [|x a IH]; [done | by rewrite !append_cons, IH]. Qed.

Lemma prefix_append (x b : string) : String.prefix x (x +:+ b) = true.
Proof.
  induction x as [|c x IH]; [by destruct b |].
  rewrite append_cons. simpl. destruct (Ascii.ascii_dec c c); [done | congruence].
Qed.

Lemma all_append (P : Ascii.ascii -> bool) (a b : string) :
  Text.all P (a +:+ b) = Text.all P a && Text.all P b.
Proof.
  induction a as [|c a IH]; [done |].
  rewrite append_cons. simpl. by rewrite IH, andb_assoc.
Qed.

Lemma all_weaken (P Q : Ascii.ascii -> bool) (s : string) :
  (forall c, P c = true -> Q c = true) ->
  Text.all P s = true -> Text.all Q s = true.
Proof.
  intros HPQ. induction s as [|c s IH]; simpl; [done |].
  intros [Hc Hs]%andb_true_iff. rewrite (HPQ _ Hc). auto.
Qed.

(** A separator that was recognised is passed over. *)
Lemma split_from_skip (sep x b : string) :
  Text.split_from sep (String.length x) (x +:+ b) = Text.split_from sep 0 b.
Proof.
  induction x as [|c x IH]; [by destruct b |].
  rewrite append_cons. simpl. apply IH.
Qed.

(** The first piece ends at the separator when the text before it does not
    hold the first character of the separator. *)
Lemma split_first (d : Ascii.ascii) (sep' a b : string) :
  Text.all (fun c => negb (Ascii.eqb c d)) a = true ->
  Text.split (String d sep') (a +:+ String d sep' +:+ b)
  = a :: Text.split (String d sep') b.
Proof.
  unfold Text.split. induction a as [|c a IH]; intros Ha.
  - change ("" +:+ String d sep' +:+ b) with (String d (sep' +:+ b)).
    cbn [Text.split_from].
    change (String d (sep' +:+ b)) with (String d sep' +:+ b).
    rewrite prefix_append.
    replace (String.length (String d sep') - 1) with (String.length sep')
      by (simpl; lia).
    by rewrite split_from_skip.
  - simpl in Ha. apply andb_true_iff in Ha as [Hc Ha].
    rewrite append_cons. cbn [Text.split_from]. simpl String.prefix.
    destruct (Ascii.ascii_dec d c) as [->|_].
    + by rewrite Ascii.eqb_refl in Hc.
    + by rewrite (IH Ha).
Qed.

Lemma split_whole (d : Ascii.ascii) (sep' a : string) :
  Text.all (fun c => negb (Ascii.eqb c d)) a = true ->
  Text.split (String d sep') a = [a].
Proof.
  unfold Text.split. induction a as [|c a IH]; intros Ha; [done |].
  simpl in Ha. apply andb_true_iff in Ha as [Hc Ha].
  cbn [Text.split_from]. simpl String.prefix.
  destruct (Ascii.ascii_dec d c) as [->|_].
  - by rewrite Ascii.eqb_refl in Hc.
  - by rewrite (IH Ha).
Qed.

(** strip-ansi leaves a text without ESC as it is. *)
Lemma stripAnsi_plain (s : string) :
  Text.all (fun c => negb (Text.is_code 27 c)) s = true -> Text.stripAnsi s = s.
Proof.
  unfold Text.stripAnsi. induction s as [|c s IH]; simpl; [done |].
  intros [Hc Hs]%andb_true_iff. apply negb_true_iff in Hc.
  by rewrite Hc, (IH Hs).
Qed.

End TextFacts.

(** ** What the script reads in the output of git *)

Section Parsing.

Lemma printable_not_esc (c : Ascii.ascii) :
  Text.printable c = true -> negb (Text.is_code 27 c) = true.
Proof.
  unfold Text.printable, Text.between, Text.is_code.
  intros [Hlo _]%andb_true_iff. apply Nat.leb_le in Hlo.
  apply negb_true_iff, Nat.eqb_neq. lia.
Qed.

(** A character that satisfies [P] is not [k] when [k] does not. *)
Lemma not_the_char (P : Ascii.ascii -> bool) (k c : Ascii.ascii) :
  P k = false -> P c = true -> negb (Ascii.eqb c k) = true.
Proof.
  intros Hk Hc. destruct (Ascii.eqb_spec c k) as [->|_]; [congruence | done].
Qed.

Lemma hex_printable (c : Ascii.ascii) :
  Text.hex c = true -> Text.printable c = true.
Proof.
  unfold Text.hex, Text.printable, Text.between.
  intros H. apply andb_true_iff.
  rewrite !Nat.leb_le. apply orb_true_iff in H as [H|H];
    apply andb_true_iff in H as [H1 H2];
    apply Nat.leb_le in H1; apply Nat.leb_le in H2; lia.
Qed.

Lemma nl_unfold : Text.nl = String (Ascii.ascii_of_nat 10) "".
Proof. reflexivity. Qed.

Lemma unlines_cons (l : string) (rest : list string) :
  Text.unlines (l :: rest) = l +:+ Text.nl +:+ Text.unlines rest.
Proof. reflexivity. Qed.

Lemma unlines_no_esc (ls : list string) :
  Forall (fun l => Text.all Text.printable l = true) ls ->
  Text.all (fun c => negb (Text.is_code 27 c)) (Text.unlines ls) = true.
Proof.
  induction 1 as [|l ls Hl _ IH]; [done |].
  rewrite unlines_cons, !all_append, IH.
  by rewrite (all_weaken _ _ l printable_not_esc Hl).
Qed.

(** The first line of an output of one line without a final line feed. *)
Lemma first_line_single (l : string) :
  Text.all Text.printable l = true ->
  Text.item 0 (Text.split Text.nl (Text.stripAnsi l)) = l.
Proof.
  intros Hl. rewrite stripAnsi_plain.
  - rewrite nl_unfold, split_whole; [done |].
    eapply all_weaken; [| exact Hl]. intros c. by apply not_the_char.
  - eapply all_weaken; [apply printable_not_esc | done].
Qed.

(** The first line of the lines a filter printed. *)
Lemma first_line_unlines (l : string) (rest : list string) :
  Forall (fun x => Text.all Text.printable x = true) (l :: rest) ->
  Text.item 0 (Text.split Text.nl (Text.stripAnsi (Text.unlines (l :: rest)))) = l.
Proof.
  intros Hall. rewrite stripAnsi_plain by by apply unlines_no_esc.
  rewrite unlines_cons, nl_unfold, split_first; [done |].
  apply Forall_cons in Hall as [Hl _].
  eapply all_weaken; [| exact Hl]. intros c. by apply not_the_char.
Qed.

Lemma wf_commit_fields (c : Commit) :
  wf_commit c = true ->
  sha c <> "" /\ Text.all Text.hex (sha c) = true
  /\ Text.all Text.printable (subject c) = true.
Proof.
  unfold wf_commit. rewrite !andb_true_iff, negb_true_iff.
  intros [[Hne Hhex] Hsub]. split_and!; [| done | done].
  intros Heq. by rewrite Heq in Hne.
Qed.

Lemma log_line_printable (c : Commit) :
  wf_commit c = true -> Text.all Text.printable (log_line c) = true.
Proof.
  intros (_ & Hhex & Hsub)%wf_commit_fields.
  unfold log_line. rewrite !all_append, Hsub.
  rewrite (all_weaken _ _ _ hex_printable Hhex). done.
Qed.

(** [output.split('---')] on a line [%H---%s]: the identifier comes first,
    then the pieces of the subject. *)
Lemma split_log_line (c : Commit) :
  wf_commit c = true ->
  Text.split "---" (log_line c) = sha c :: Text.split "---" (subject c).
Proof.
  intros (_ & Hhex & _)%wf_commit_fields.
  unfold log_line. apply (split_first (Ascii.ascii_of_nat 45) "--").
  eapply all_weaken; [| exact Hhex]. intros x. by apply not_the_char.
Qed.

Lemma pointer_of_log_line (c : Commit) :
  wf_commit c = true ->
  {| hash := Text.item 0 (Text.split "---" (log_line c));
     label := Text.item 1 (Text.split "---" (log_line c)) |} = pointer_read c.
Proof. intros Hc. by rewrite split_log_line. Qed.

End Parsing.

(** ** Running commands *)

Section Running.

Lemma exec_single (c : Cmd) (w : World) :
  exec [c] w =
  (if Nat.eqb (status (run c (repo w)).1) 0
   then Ok (stdout (run c (repo w)).1)
   else Throw (command_failed [c] (run c (repo w)).1),
   after [[c]] (run c (repo w)).2 w).
Proof.
  unfold exec, after. cbn [run_chain].
  destruct (run c (repo w)) as [o r]. cbn [fst snd].
  destruct (Nat.eqb (status o) 0) eqn:Hst.
  - unfold ok. cbn. by rewrite append_empty_r.
  - by rewrite Hst.
Qed.

(** The two ways an awaited call ends. *)
Lemma bind_ok {A B : Type} (m : M A) (f : A -> M B) (w w1 : World) (a : A) :
  m w = (Ok a, w1) -> (m ≫= f) w = f a w1.
Proof. intros H. unfold mbind, M_bind. by rewrite H. Qed.

Lemma bind_throw {A B : Type} (m : M A) (f : A -> M B) (w w1 : World) (e : Error) :
  m w = (Throw e, w1) -> (m ≫= f) w = (Throw e, w1).
Proof. intros H. unfold mbind, M_bind. by rewrite H. Qed.

Lemma bind_inv {A B : Type} (m : M A) (f : A -> M B) (w w' : World) (b : B) :
  (m ≫= f) w = (Ok b, w') ->
  exists a w1, m w = (Ok a, w1) /\ f a w1 = (Ok b, w').
Proof.
  unfold mbind, M_bind. destruct (m w) as [[a|e] w1]; [eauto | done].
Qed.

(** The commands that only read. *)
Lemma reading_keeps_repo (c : Cmd) (r : Repo) :
  match c with
  | RevParseHead | Log1 _ | LogGrepWord _ | RemoteGrep _ => (run c r).2 = r
  | _ => True
  end.
Proof.
  destruct c; try done; cbn [run]; unfold rev_parse_head, log1, grep;
    repeat case_match; done.
Qed.

Lemma console_log_then {A : Type} (line : list (Style * string))
    (f : () -> M A) (w : World) :
  (console_log line ≫= f) w = f () (console_log line w).2.
Proof. reflexivity. Qed.

Lemma tidy_current (r : Repo) (h : list Commit) :
  tidy r -> current r = Some h -> Forall (fun c => wf_commit c = true) h.
Proof.
  intros Ht Hc. apply Forall_forall. intros c Hin.
  specialize (Ht _ _ Hc). simpl in Ht.
  rewrite forallb_forall in Ht. by apply Ht, list_elem_of_In.
Qed.

End Running.

(** ** The two resolution calls *)

Section Resolution.

(** The commits of the branch checked out are well formed. *)
Lemma tidy_on_current (r : Repo) :
  tidy r -> Forall (fun c => wf_commit c = true) (default [] (current r)).
Proof.
  intros Ht. destruct (current r) eqn:Hc; [by eapply tidy_current | constructor].
Qed.

Lemma getLatestCommit_on (w : World) :
  Forall (fun c => wf_commit c = true) (default [] (current (repo w))) ->
  getLatestCommit w =
  match current (repo w) with
  | Some (c :: _) => (Ok (pointer_read c), after [[Log1 HashSubject]] (repo w) w)
  | _ =>
      (Throw (command_failed [Log1 HashSubject] (log1 log_line (repo w)).1),
       after [[Log1 HashSubject]] (repo w) w)
  end.
Proof.
  intros Hall. unfold getLatestCommit.
  pose proof (exec_single (Log1 HashSubject) w) as Hexec.
  cbn [run format] in Hexec. unfold log1 in *.
  destruct (current (repo w)) as [[|c h]|] eqn:Hc; cbn in Hexec.
  - by rewrite (bind_throw _ _ _ _ _ Hexec).
  - rewrite (bind_ok _ _ _ _ _ Hexec). unfold mret, M_ret.
    apply Forall_cons in Hall as [Hwf _].
    rewrite first_line_single by by apply log_line_printable.
    by rewrite pointer_of_log_line.
  - by rewrite (bind_throw _ _ _ _ _ Hexec).
Qed.

Lemma getLatestCommit_run (w : World) :
  tidy (repo w) ->
  getLatestCommit w =
  match current (repo w) with
  | Some (c :: _) => (Ok (pointer_read c), after [[Log1 HashSubject]] (repo w) w)
  | _ =>
      (Throw (command_failed [Log1 HashSubject] (log1 log_line (repo w)).1),
       after [[Log1 HashSubject]] (repo w) w)
  end.
Proof. intros Ht. by apply getLatestCommit_on, tidy_on_current. Qed.

Lemma filter_log_lines (keep : string -> bool) (h : list Commit) :
  List.filter keep (log_line <$> h)
  = log_line <$> List.filter (fun c => keep (log_line c)) h.
Proof.
  induction h as [|c h IH]; [done |]. cbn.
  destruct (keep (log_line c)); cbn; by rewrite IH.
Qed.

Lemma find_filter {A : Type} (f : A -> bool) (l : list A) :
  List.find f l = hd_error (List.filter f l).
Proof. induction l as [|x l IH]; [done |]. cbn. by destruct (f x). Qed.

Lemma filter_keeps_Forall {A : Type} (P : A -> Prop) (f : A -> bool) (l : list A) :
  Forall P l -> Forall P (List.filter f l).
Proof.
  induction 1 as [|x l Hx _ IH]; [constructor |]. cbn.
  destruct (f x); [by constructor | done].
Qed.

Lemma getCommitByName_on (name : Js.Val) (w : World) :
  Forall (fun c => wf_commit c = true) (default [] (current (repo w))) ->
  let search := [LogGrepWord (Js.template name)] in
  getCommitByName name w =
  match most_recent_match (Js.template name) (default [] (current (repo w))) with
  | Some c => (Ok (pointer_read c), after [search] (repo w) w)
  | None => (Throw (command_failed search nothing_selected), after [search] (repo w) w)
  end.
Proof.
  intros Hwf search. unfold getCommitByName, most_recent_match.
  pose proof (exec_single (LogGrepWord (Js.template name)) w) as Hexec.
  cbn [run] in Hexec. unfold grep, log_lines in Hexec.
  replace (match current (repo w) with Some h => log_line <$> h | None => [] end)
    with (log_line <$> default [] (current (repo w))) in Hexec
    by by destruct (current (repo w)).
  rewrite filter_log_lines in Hexec. rewrite find_filter.
  apply (filter_keeps_Forall _
           (fun c => Grep.selects_word (Js.template name) (log_line c))) in Hwf.
  destruct (List.filter _ (default [] (current (repo w)))) as [|c rest];
    cbn in Hexec.
  - by rewrite (bind_throw _ _ _ _ _ Hexec).
  - rewrite (bind_ok _ _ _ _ _ Hexec). unfold mret, M_ret. cbn [hd_error].
    apply Forall_cons in Hwf as [Hc Hrest].
    rewrite <- (unlines_cons (log_line c) (log_line <$> rest)).
    rewrite first_line_unlines.
    + by rewrite pointer_of_log_line.
    + constructor; [by apply log_line_printable |].
      apply Forall_fmap. eapply Forall_impl; [exact Hrest |].
      intros x Hx. by apply log_line_printable.
Qed.

Lemma getCommitByName_run (name : Js.Val) (w : World) :
  tidy (repo w) ->
  let search := [LogGrepWord (Js.template name)] in
  getCommitByName name w =
  match most_recent_match (Js.template name) (default [] (current (repo w))) with
  | Some c => (Ok (pointer_read c), after [search] (repo w) w)
  | None => (Throw (command_failed search nothing_selected), after [search] (repo w) w)
  end.
Proof. intros Ht. by apply getCommitByName_on, tidy_on_current. Qed.

End Resolution.

(** ** Release resolution (claims C2, C3 and C7) *)

Section ReleaseResolution.

Import Sample.

Lemma clone_tidy (branch : string) (v3 public : list Commit) :
  forallb wf_commit v3 = true -> forallb wf_commit public = true ->
  tidy (clone branch v3 public).
Proof.
  intros Hv3 Hpublic b h. cbn [clone branches].
  rewrite !lookup_insert. repeat case_decide; naive_solver.
Qed.

(** A text that does not hold the separator is one piece. *)
Lemma split_absent (sep s : string) :
  Text.contains sep s = false -> Text.split sep s = [s].
Proof.
  unfold Text.split. induction s as [|c s IH]; [done |].
  cbn [Text.contains Text.split_from].
  intros [Hhere Hlater]%orb_false_iff. by rewrite Hhere, (IH Hlater).
Qed.

Lemma pointer_read_dashless (c : Commit) (h : list Commit) :
  dashless h = true -> c ∈ h -> pointer_read c = pointer_of c.
Proof.
  unfold dashless. rewrite forallb_forall. intros Hall Hin.
  apply list_elem_of_In, Hall, negb_true_iff in Hin.
  unfold pointer_read, pointer_of, before_dashes. by rewrite split_absent.
Qed.

Lemma most_recent_match_in (name : string) (h : list Commit) (c : Commit) :
  most_recent_match name h = Some c -> c ∈ h.
Proof. intros [Hin _]%find_some. by apply list_elem_of_In. Qed.




(** The chain of [getWebclientRelease]: on the mirror branch, the subject of
    its most recent commit. *)
Lemma exec_public_subject (w : World) (p : Commit) (ph : list Commit) :
  branches (repo w) !! "public" = Some (p :: ph) ->
  exec [Checkout "public" true; Log1 SubjectOnly] w
  = (Ok (subject p),
     after [[Checkout "public" true; Log1 SubjectOnly]]
       (with_head "public" (repo w)) w).
Proof.
  intros Hpub. unfold exec, after. cbn [run_chain run format].
  unfold checkout, log1, current. rewrite Hpub. cbn. rewrite Hpub. cbn.
  by rewrite append_empty_r.
Qed.




(** The label of a pointer stops at the first [---] of the subject. *)
Example label_stops_at_dashes :
  (getLatestCommit (start dashed_clone)).1
  = Ok {| hash := sha c6; label := "Fix the composer " |}
  /\ (getWebclientRelease (start dashed_clone)).1
     = Ok {| hash := sha c6; label := "Fix the composer " |}.
Proof. split; vm_compute; reflexivity. Qed.




End ReleaseResolution.

(** ** Synchronisation (claims C4 and C8) *)

Section Synchronisation.

Import Sample.

Lemma commandeVerbose_run (cs : list Cmd) (w : World) :
  commandeVerbose cs w =
  (if Nat.eqb (status (run_chain cs (repo w)).1) 0 then Ok ()
   else Throw (command_failed cs (run_chain cs (repo w)).1),
   {| repo := (run_chain cs (repo w)).2;
      trace := trace w ++ [cs];
      console := console w;
      piped := piped w ++ [stdout (run_chain cs (repo w)).1;
                           stderr (run_chain cs (repo w)).1];
      exit_code := exit_code w |}).
Proof.
  unfold commandeVerbose. destruct (run_chain cs (repo w)) as [o r]. cbn [fst snd].
  by destruct (Nat.eqb (status o) 0).
Qed.

Lemma run_chain_single (c : Cmd) (r : Repo) :
  status (run c r).1 <> 0 -> run_chain [c] r = run c r.
Proof.
  intros Hst. cbn [run_chain]. destruct (run c r) as [o r1].
  apply Nat.eqb_neq in Hst. cbn [fst] in Hst. by rewrite Hst.
Qed.

(** A checkout that succeeded switched to the branch. *)
Lemma checkout_switches (b : string) (r : Repo) :
  status (checkout b r).1 = 0 -> head (checkout b r).2 = b.
Proof. unfold checkout. by destruct (branches r !! b). Qed.

Lemma exec_checkout_switches (b : string) (q : bool) (w w' : World) (out : string) :
  exec [Checkout b q] w = (Ok out, w') -> head (repo w') = b.
Proof.
  rewrite exec_single. cbn [run].
  destruct (Nat.eqb (status (checkout b (repo w)).1) 0) eqn:Hst; [| done].
  intros [= _ <-]. cbn [repo after]. apply checkout_switches.
  by apply Nat.eqb_eq.
Qed.

Lemma success_keeps_repo (msg : string) (w w' : World) (u : ()) :
  success msg w = (Ok u, w') -> repo w' = repo w.
Proof. unfold success, console_log. by intros [= _ <-]. Qed.

(** C4: whatever the two release pointers and the state it starts in, when
    [syncWebclient] completes the branch checked out is [v3]. *)
Theorem C4_sync_ends_on_v3
    (webclientRelease latestRelease : ReleasePointer) (w w' : World) :
  syncWebclient webclientRelease latestRelease w = (Ok (), w') ->
  head (repo w') = "v3".
Proof.
  unfold syncWebclient. intros H.
  apply bind_inv in H as (? & w1 & _ & H).
  apply bind_inv in H as (? & w2 & _ & H).
  apply bind_inv in H as (? & w3 & _ & H).
  apply bind_inv in H as (out & w4 & Hcheckout & H).
  rewrite (success_keeps_repo _ _ _ _ H).
  by eapply exec_checkout_switches.
Qed.

(** The commits after [Release 3.12.23] are replayed on the mirror, and the
    clone is back on [v3]. *)
Lemma C4_witness :
  head (repo (syncWebclient (pointer_read c2) (pointer_read c5)
                (start (clone "v3" v3_history public_history))).2) = "v3".
Proof.
  apply (C4_sync_ends_on_v3 (pointer_read c2) (pointer_read c5)
           (start (clone "v3" v3_history public_history))).
  vm_compute. reflexivity.
Defined.

(** A range whose two ends are the same commit is empty. *)
Lemma range_same (h : list Commit) : range h h = [].
Proof.
  unfold range.
  assert (forall l, l ⊆ h -> filter (fun c => sha c ∉ sha <$> h) l = []) as Hsub.
  { induction l as [|c l IH]; intros Hl; [done |].
    rewrite filter_cons_False.
    - apply IH. set_solver.
    - intros Hnot. apply Hnot, list_elem_of_fmap. exists c. set_solver. }
  by apply Hsub.
Qed.

(** git refuses to cherry-pick [a..a], and changes nothing. *)
Lemma cherry_pick_same (a : string) (r : Repo) :
  status (cherry_pick a a r).1 = 128 /\ (cherry_pick a a r).2 = r.
Proof.
  unfold cherry_pick.
  destruct (resolve a r) as [h|]; [| done].
  destruct (current r); [| done]. by rewrite range_same.
Qed.

Lemma pull_keeps_head (n b : string) (r : Repo) : head (pull n b r).2 = head r.
Proof.
  unfold pull. destruct (remotes r !! n) as [rm|]; [| done].
  destruct (servers r !! url rm ≫= _); [| done].
  destruct (current r); [| done].
  repeat case_bool_decide; done.
Qed.

(** Where the first command line of [syncWebclient] leaves the clone when
    all its commands succeed. *)
Lemma prepared_on_public (r : Repo) :
  status (run_chain [Checkout "v3" false; Pull "origin" "v3";
                     Checkout "public" false; Pull "webclient" "public"] r).1 = 0 ->
  head (run_chain [Checkout "v3" false; Pull "origin" "v3";
                   Checkout "public" false; Pull "webclient" "public"] r).2
  = "public".
Proof.
  cbn [run_chain run].
  destruct (checkout "v3" r) as [o1 r1].
  destruct (Nat.eqb (status o1) 0) eqn:H1; [| by apply Nat.eqb_neq in H1].
  destruct (pull "origin" "v3" r1) as [o2 r2].
  destruct (Nat.eqb (status o2) 0) eqn:H2; [| by apply Nat.eqb_neq in H2].
  pose proof (checkout_switches "public" r2) as Hsw.
  destruct (checkout "public" r2) as [o3 r3].
  destruct (Nat.eqb (status o3) 0) eqn:H3; [| by apply Nat.eqb_neq in H3].
  apply Nat.eqb_eq in H3. cbn [fst snd] in Hsw. specialize (Hsw H3).
  pose proof (pull_keeps_head "webclient" "public" r3) as Hpull.
  destruct (pull "webclient" "public" r3) as [o4 r4].
  cbn [fst snd] in Hpull.
  destruct (Nat.eqb (status o4) 0); cbn; congruence.
Qed.

(** C8, as amended: the two pointers have the same hash.  The range named
    on the command line of [git cherry-pick] is empty, the script has no case
    of its own for it, git refuses an empty set of commits, and
    [syncWebclient] rejects: either the first command line failed, or the
    cherry-pick did, with status 128, and then the clone is left on [public].
    Nothing is pushed. *)
Theorem C8_equal_hashes_reject
    (webclientRelease latestRelease : ReleasePointer) (w : World) :
  hash webclientRelease = hash latestRelease ->
  let prepare := [Checkout "v3" false; Pull "origin" "v3";
                  Checkout "public" false; Pull "webclient" "public"] in
  let pick := [CherryPick (hash webclientRelease) (hash latestRelease)] in
  (forall r ha hb,
      resolve (hash webclientRelease) r = Some ha ->
      resolve (hash latestRelease) r = Some hb -> range ha hb = [])
  /\ exists e w',
      syncWebclient webclientRelease latestRelease w = (Throw e, w')
      /\ (trace w' = (trace w ++ [prepare])%list
          \/ (trace w' = (trace w ++ [prepare; pick])%list
              /\ head (repo w') = "public"
              /\ exists o, status o = 128 /\ e = command_failed pick o)).
Proof.
  intros Heq prepare pick. split.
  - intros r ha hb Ha Hb. rewrite Heq in Ha. rewrite Ha in Hb.
    injection Hb as <-. apply range_same.
  - unfold syncWebclient. subst pick. rewrite <- Heq.
    fold prepare. pose proof (commandeVerbose_run prepare w) as Hprep.
    pose proof (prepared_on_public (repo w)) as Hpublic. fold prepare in Hpublic.
    destruct (Nat.eqb (status (run_chain prepare (repo w)).1) 0) eqn:Hst.
    + rewrite (bind_ok _ _ _ _ _ Hprep). cbv beta.
      match goal with |- context [(commandeVerbose ?cs ≫= _) ?w1] =>
        pose proof (commandeVerbose_run cs w1) as Hpick end.
      cbn [repo] in Hpick.
      destruct (cherry_pick_same (hash webclientRelease)
                  (run_chain prepare (repo w)).2) as [H128 Hsame].
      rewrite run_chain_single in Hpick by (cbn [run]; by rewrite H128).
      cbn [run] in Hpick. rewrite H128, Hsame in Hpick. cbn [Nat.eqb] in Hpick.
      rewrite (bind_throw _ _ _ _ _ Hpick).
      eexists _, _. split; [done |]. right. cbn [trace repo].
      split_and!.
      * by rewrite <- app_assoc.
      * apply Hpublic. by apply Nat.eqb_eq.
      * by eexists.
    + rewrite (bind_throw _ _ _ _ _ Hprep).
      eexists _, _. split; [done |]. by left.
Qed.

(** Both pointers at [Release 3.12.23]: the cherry-pick is refused. *)
Lemma C8_witness :
  exists e w',
    syncWebclient (pointer_read c2) (pointer_read c2)
      (start (clone "v3" v3_history public_history)) = (Throw e, w').
Proof.
  destruct (C8_equal_hashes_reject (pointer_read c2) (pointer_read c2)
              (start (clone "v3" v3_history public_history)))
    as (_ & e & w' & Hrun & _).
  - vm_compute. reflexivity.
  - by exists e, w'.
Defined.

(** C8 as stated fails: with both pointers at [Release 3.12.23], on a clone
    where every other command succeeds, [syncWebclient] rejects with the
    error of the cherry-pick. *)
Lemma C8_empty_range_fails :
  hash (pointer_read c2) = hash (pointer_read c2)
  /\ (syncWebclient (pointer_read c2) (pointer_read c2)
        (start (clone "v3" v3_history public_history))).1
     = Throw {| message :=
         "Command failed: git cherry-pick -X theirs --allow-empty "
         +:+ id "b2b2" +:+ ".." +:+ id "b2b2" +:+ Text.nl
         +:+ "error: empty commit set passed" +:+ Text.nl
         +:+ "fatal: cherry-pick failed" +:+ Text.nl |}
  /\ (syncWebclient (pointer_read c2) (pointer_read c2)
        (start (clone "v3" v3_history public_history))).1 <> Ok ().
Proof. split_and!; [vm_compute; reflexivity .. | vm_compute; discriminate]. Qed.

End Synchronisation.

(** ** Remote bootstrap (claim C5) *)

Section RemoteBootstrap.

Import Sample.

(** A remote that is registered is found by the check. *)
Lemma registered_found (r : Repo) :
  is_Some (remotes r !! "webclient") -> remote_found r = true.
Proof.
  intros [rm Hrm]. unfold remote_found. cbn [run]. unfold grep.
  assert (In "webclient"
            (List.filter (Grep.selects "webclient") (remote_names r))) as Hin.
  { apply filter_In. split; [| done].
    apply list_elem_of_In. unfold remote_names.
    apply list_elem_of_fmap. exists ("webclient", rm). split; [done |].
    by apply elem_of_map_to_list. }
  by destruct (List.filter _ _).
Qed.

(** No command of the script removes a remote. *)
Lemma run_keeps_remote (c : Cmd) (r : Repo) (n : string) :
  is_Some (remotes r !! n) -> is_Some (remotes (run c r).2 !! n).
Proof.
  intros Hn.
  assert (forall m rm, is_Some (remotes r !! n) ->
                       is_Some (<[m:=rm]> (remotes r) !! n)) as Hins.
  { intros m rm H. rewrite lookup_insert. by case_decide. }
  destruct c; cbn [run]; unfold rev_parse_head, log1, grep, checkout,
    checkout_new, remote_add, config_set, fetch, pull, push, cherry_pick, ok, fail;
    repeat (case_match; cbn [snd remotes with_head with_branches with_remotes
                               with_config with_servers]);
    auto.
Qed.

Lemma run_chain_keeps_remote (cs : list Cmd) (r : Repo) (n : string) :
  is_Some (remotes r !! n) -> is_Some (remotes (run_chain cs r).2 !! n).
Proof.
  revert r. induction cs as [|c cs IH]; intros r Hn; [done |].
  cbn [run_chain]. pose proof (run_keeps_remote c r n Hn) as Hc.
  destruct (run c r) as [o r1]. cbn [snd] in Hc.
  destruct (Nat.eqb (status o) 0); [| done].
  specialize (IH r1 Hc). by destruct (run_chain cs r1).
Qed.

Lemma run_chain_cons_repo (c : Cmd) (cs : list Cmd) (r : Repo) :
  status (run c r).1 = 0 ->
  (run_chain (c :: cs) r).2 = (run_chain cs (run c r).2).2.
Proof.
  cbn [run_chain]. destruct (run c r) as [o r1]. cbn [fst snd]. intros ->.
  cbn [Nat.eqb]. by destruct (run_chain cs r1).
Qed.

(** After the command line of [addPublicRemote] the remote is registered,
    whether or not the whole line succeeded. *)
Lemma bootstrap_registers (r : Repo) :
  is_Some (remotes (run_chain bootstrap r).2 !! "webclient").
Proof.
  destruct (remotes r !! "webclient") as [rm|] eqn:Hrm.
  - apply run_chain_keeps_remote. by rewrite Hrm.
  - unfold bootstrap. rewrite run_chain_cons_repo.
    + apply run_chain_keeps_remote. cbn [run]. unfold remote_add. rewrite Hrm.
      cbn. by rewrite lookup_insert_eq.
    + cbn [run]. unfold remote_add. by rewrite Hrm.
Qed.

Lemma hasPublicRemote_found (w : World) :
  remote_found (repo w) = true ->
  trace (hasPublicRemote w).2 = (trace w ++ [[RemoteGrep "webclient"]])%list
  /\ repo (hasPublicRemote w).2 = repo w.
Proof.
  unfold remote_found, hasPublicRemote, try_catch. intros Hfound.
  pose proof (exec_single (RemoteGrep "webclient") w) as Hexec.
  rewrite Hfound in Hexec. rewrite (bind_ok _ _ _ _ _ Hexec).
  cbn [snd success console_log trace repo after run].
  unfold grep. by destruct (List.filter _ _).
Qed.

Lemma hasPublicRemote_setup (w : World) :
  remote_found (repo w) = false ->
  trace (hasPublicRemote w).2
  = (trace w ++ [[RemoteGrep "webclient"]; bootstrap])%list
  /\ repo (hasPublicRemote w).2 = (run_chain bootstrap (repo w)).2.
Proof.
  unfold remote_found, hasPublicRemote, try_catch. intros Hmissing.
  pose proof (exec_single (RemoteGrep "webclient") w) as Hexec.
  rewrite Hmissing in Hexec. rewrite (bind_throw _ _ _ _ _ Hexec).
  assert ((run (RemoteGrep "webclient") (repo w)).2 = repo w) as Hsame.
  { cbn [run]. unfold grep. by destruct (List.filter _ _). }
  rewrite Hsame. unfold addPublicRemote, mbind, M_bind, exec.
  change ([RemoteAdd "webclient" "git@github.com:ProtonMail/WebClient.git"] ++
          [ConfigSet "remote.webclient.push" "upstream"] ++
          [Fetch "webclient"] ++ [CheckoutNew "public" "webclient" "public"])%list
    with bootstrap.
  cbn [repo after]. destruct (run_chain bootstrap (repo w)) as [o r].
  destruct (Nat.eqb (status o) 0);
    cbn [snd success console_log trace repo after];
    by rewrite <- app_assoc.
Qed.

Lemma not_found_unregistered (r : Repo) :
  remote_found r = false -> remotes r !! "webclient" = None.
Proof.
  intros Hmissing. destruct (remotes r !! "webclient") eqn:Hrm; [| done].
  rewrite registered_found in Hmissing; [done | by rewrite Hrm].
Qed.

(** The three ways [hasPublicRemote] ends. *)
Lemma hasPublicRemote_run (w : World) :
  let check := [RemoteGrep "webclient"] in
  let o := (run_chain bootstrap (repo w)).1 in
  let r := (run_chain bootstrap (repo w)).2 in
  hasPublicRemote w =
  if remote_found (repo w)
  then (Ok (), said "Public remote exists" (after [check] (repo w) w))
  else if Nat.eqb (status o) 0
  then (Ok (), said "Add public remote" (after [check; bootstrap] r w))
  else (Throw (command_failed bootstrap o), after [check; bootstrap] r w).
Proof.
  intros check o r. unfold hasPublicRemote, try_catch.
  pose proof (exec_single (RemoteGrep "webclient") w) as Hexec.
  rewrite (reading_keeps_repo (RemoteGrep "webclient")) in Hexec.
  fold (remote_found (repo w)) in Hexec.
  destruct (remote_found (repo w)).
  - by rewrite (bind_ok _ _ _ _ _ Hexec).
  - rewrite (bind_throw _ _ _ _ _ Hexec).
    unfold addPublicRemote, mbind, M_bind, exec.
    change ([RemoteAdd "webclient" "git@github.com:ProtonMail/WebClient.git"] ++
            [ConfigSet "remote.webclient.push" "upstream"] ++
            [Fetch "webclient"] ++ [CheckoutNew "public" "webclient" "public"])%list
      with bootstrap.
    cbn [repo after]. subst o r.
    destruct (run_chain bootstrap (repo w)) as [o r]. cbn [fst snd].
    destruct (Nat.eqb (status o) 0);
      unfold said, success, console_log, after; cbn [snd trace repo console piped exit_code];
      by rewrite <- app_assoc.
Qed.

(** C5: [hasPublicRemote] called twice in a row, from any state.  When the
    check of the first call succeeds, that call runs the check and nothing
    else; when it fails, the call runs the check and then the command line of
    [addPublicRemote].  In both cases the check of the second call succeeds
    and the second call runs nothing but the check: the bootstrap runs at
    most once. *)
Theorem C5_bootstrap_at_most_once (w : World) :
  let check := [RemoteGrep "webclient"] in
  let w1 := (hasPublicRemote w).2 in
  let w2 := (hasPublicRemote w1).2 in
  (remote_found (repo w) = true -> trace w1 = (trace w ++ [check])%list)
  /\ (remote_found (repo w) = false ->
      trace w1 = (trace w ++ [check; bootstrap])%list)
  /\ remote_found (repo w1) = true
  /\ trace w2 = (trace w1 ++ [check])%list
  /\ length (List.filter (fun cs => bool_decide (cs = bootstrap))
               (drop (length (trace w)) (trace w2))) <= 1.
Proof.
  intros check w1 w2.
  assert (remote_found (repo w1) = true) as Hfound1.
  { subst w1. destruct (remote_found (repo w)) eqn:Hfound.
    - destruct (hasPublicRemote_found w Hfound) as [_ ->]. done.
    - destruct (hasPublicRemote_setup w Hfound) as [_ ->].
      apply registered_found, bootstrap_registers. }
  destruct (hasPublicRemote_found w1 Hfound1) as [Htrace2 _].
  fold w2 in Htrace2. split_and!; try done.
  - intros Hfound. by destruct (hasPublicRemote_found w Hfound).
  - intros Hmissing. by destruct (hasPublicRemote_setup w Hmissing).
  - rewrite Htrace2. subst w1. destruct (remote_found (repo w)) eqn:Hfound.
    + destruct (hasPublicRemote_found w Hfound) as [-> _].
      rewrite <- app_assoc, drop_app_length. vm_compute. lia.
    + destruct (hasPublicRemote_setup w Hfound) as [-> _].
      rewrite <- app_assoc, drop_app_length. vm_compute. lia.
Qed.

(** On a fresh clone the first call sets the remote up and the second call
    finds it. *)
Example bootstrap_on_fresh_clone :
  remote_found fresh_clone = false
  /\ render_chain <$> trace (hasPublicRemote (hasPublicRemote (start fresh_clone)).2).2
     = [ "git remote | grep webclient";
         "git remote add webclient git@github.com:ProtonMail/WebClient.git"
         +:+ " && git config remote.webclient.push upstream"
         +:+ " && git fetch webclient"
         +:+ " && git checkout -b public webclient/public";
         "git remote | grep webclient" ].
Proof. split; vm_compute; reflexivity. Qed.

End RemoteBootstrap.

(** ** The driver (claims C1 and C6) *)

Section Driver.

Import Sample.

Lemma abbrev_ref_printable (r : Repo) :
  Text.all Text.printable (head r) = true ->
  Text.all Text.printable (abbrev_ref r) = true.
Proof.
  intros Hname. unfold abbrev_ref. case_bool_decide; [| done].
  by rewrite all_append, Hname.
Qed.

(** With a tag of the same name, the name git prints is never [v3]. *)
Lemma abbrev_ref_tagged (r : Repo) :
  head r ∈ tags r -> String.eqb (abbrev_ref r) "v3" = false.
Proof.
  intros Htag. unfold abbrev_ref. rewrite bool_decide_eq_true_2 by done.
  reflexivity.
Qed.

Lemma abbrev_ref_untagged (r : Repo) :
  head r ∉ tags r -> abbrev_ref r = head r.
Proof. intros Htag. unfold abbrev_ref. by rewrite bool_decide_eq_false_2. Qed.

(** What [isDeployAbleBranch] reads is the name git printed. *)
Lemma branch_name_read (w : World) (c : Commit) (h : list Commit) :
  Text.all Text.printable (head (repo w)) = true ->
  current (repo w) = Some (c :: h) ->
  exec [RevParseHead] w
  = (Ok (abbrev_ref (repo w) +:+ Text.nl), after [[RevParseHead]] (repo w) w)
  /\ Text.item 0 (Text.split Text.nl
                   (Text.stripAnsi (abbrev_ref (repo w) +:+ Text.nl)))
     = abbrev_ref (repo w).
Proof.
  intros Hname Hcur. split.
  - rewrite exec_single. cbn [run]. unfold rev_parse_head. by rewrite Hcur.
  - change (abbrev_ref (repo w) +:+ Text.nl)
      with (Text.unlines [abbrev_ref (repo w)]).
    apply first_line_unlines. repeat constructor. by apply abbrev_ref_printable.
Qed.

(** The two ways [isDeployAbleBranch] throws, and the one way it returns. *)
Lemma isDeployAbleBranch_run (w : World) :
  Text.all Text.printable (head (repo w)) = true ->
  isDeployAbleBranch w =
  (match current (repo w) with
   | Some (_ :: _) =>
       if String.eqb (abbrev_ref (repo w)) "v3" then Ok () else Throw wrong_branch
   | _ => Throw no_commit_yet
   end,
   after [[RevParseHead]] (repo w) w).
Proof.
  intros Hname. unfold isDeployAbleBranch.
  destruct (current (repo w)) as [[|c h]|] eqn:Hcur.
  - rewrite (bind_throw _ _ w (after [[RevParseHead]] (repo w) w) no_commit_yet);
      [done |].
    rewrite exec_single. cbn [run]. unfold rev_parse_head. by rewrite Hcur.
  - destruct (branch_name_read w c h Hname Hcur) as [Hexec Hline].
    rewrite (bind_ok _ _ _ _ _ Hexec), Hline.
    by destruct (String.eqb (abbrev_ref (repo w)) "v3").
  - rewrite (bind_throw _ _ w (after [[RevParseHead]] (repo w) w) no_commit_yet);
      [done |].
    rewrite exec_single. cbn [run]. unfold rev_parse_head. by rewrite Hcur.
Qed.

(** The [catch] block: three lines are printed and the script exits. *)
Lemma report_run (e : Error) (w : World) :
  report e w
  = (Ok (),
     {| repo := repo w;
        trace := trace w;
        console := console w ++ [error_line e; []; help_msg];
        piped := piped w;
        exit_code := Some 1 |}).
Proof.
  unfold report, help, mbind, M_bind, console_log, process_exit.
  cbn [repo trace console piped exit_code]. unfold error_line.
  by rewrite <- !app_assoc.
Qed.




(** *** The exit status *)

Lemma ret_stopped {A : Type} (a : A) : rejects_stopped (mret a : M A).
Proof. intros w e w1 H. discriminate H. Qed.

Lemma console_log_stopped (line : list (Style * string)) :
  rejects_stopped (console_log line).
Proof. intros w e w1 H. discriminate H. Qed.

Lemma process_exit_stopped (code : nat) : rejects_stopped (process_exit code).
Proof. intros w e w1 H. discriminate H. Qed.

Lemma wrong_branch_stopped {A : Type} : rejects_stopped (throw wrong_branch : M A).
Proof. intros w e w1 [= <- <-]. by left. Qed.

Lemma bind_stopped {A B : Type} (m : M A) (f : A -> M B) :
  rejects_stopped m -> (forall a, rejects_stopped (f a)) ->
  rejects_stopped (m ≫= f).
Proof.
  intros Hm Hf w e w1. unfold mbind, M_bind.
  destruct (m w) as [[a|e0] w0] eqn:Hrun.
  - apply Hf.
  - intros [= <- <-]. by eapply Hm.
Qed.

(** What the body of a [try] rejects with does not matter: the handler
    decides. *)
Lemma try_catch_stopped {A : Type} (body : M A) (handler : Error -> M A) :
  (forall e, rejects_stopped (handler e)) ->
  rejects_stopped (try_catch body handler).
Proof.
  intros Hhandler w e w1. unfold try_catch.
  destruct (body w) as [[a|e0] w0]; [done | apply Hhandler].
Qed.

Lemma exec_stopped (cs : list Cmd) :
  cs <> [RemoteGrep "webclient"] -> rejects_stopped (exec cs).
Proof.
  intros Hcs w e w1. unfold exec.
  destruct (run_chain cs (repo w)) as [o r].
  destruct (Nat.eqb (status o) 0) eqn:Hst; [done |].
  intros [= <- <-]. right. exists cs, o. cbn [trace].
  split_and!; [apply last_snoc | done | by apply Nat.eqb_neq | done].
Qed.

Lemma commandeVerbose_stopped (cs : list Cmd) :
  cs <> [RemoteGrep "webclient"] -> rejects_stopped (commandeVerbose cs).
Proof.
  intros Hcs w e w1. unfold commandeVerbose.
  destruct (run_chain cs (repo w)) as [o r].
  destruct (Nat.eqb (status o) 0) eqn:Hst; [done |].
  intros [= <- <-]. right. exists cs, o. cbn [trace].
  split_and!; [apply last_snoc | done | by apply Nat.eqb_neq | done].
Qed.

(** The [try] block rejects with the error of [isDeployAbleBranch] or with
    the failure of the command line it ran last; the failure of the check of
    [hasPublicRemote] is not one of them. *)
Lemma workflow_stopped (argv : Argv) : rejects_stopped (workflow argv).
Proof.
  unfold workflow, isDeployAbleBranch, hasPublicRemote, addPublicRemote,
    getAngularRelease, getWebclientRelease, getCommitByName, getLatestCommit,
    syncWebclient, success.
  repeat first
    [ apply bind_stopped; [| intros ?]
    | apply try_catch_stopped; intros ?
    | apply exec_stopped; discriminate
    | apply commandeVerbose_stopped; discriminate
    | apply console_log_stopped
    | apply process_exit_stopped
    | apply ret_stopped
    | apply wrong_branch_stopped
    | match goal with |- rejects_stopped (if ?b then _ else _) => destruct b end ].
Qed.

Lemma exec_ok_world (cs : list Cmd) (w w1 : World) (out : string) :
  exec cs w = (Ok out, w1) ->
  trace w1 = (trace w ++ [cs])%list /\ console w1 = console w
  /\ exit_code w1 = exit_code w.
Proof.
  unfold exec. destruct (run_chain cs (repo w)) as [o r].
  destruct (Nat.eqb (status o) 0); [| done]. by intros [= _ <-].
Qed.

Lemma commandeVerbose_ok_world (cs : list Cmd) (w w1 : World) (u : ()) :
  commandeVerbose cs w = (Ok u, w1) ->
  trace w1 = (trace w ++ [cs])%list /\ console w1 = console w
  /\ exit_code w1 = exit_code w.
Proof.
  unfold commandeVerbose. destruct (run_chain cs (repo w)) as [o r].
  destruct (Nat.eqb (status o) 0); [| done]. by intros [= _ <-].
Qed.

(** A synchronisation that resolves ran its four command lines and printed
    one line. *)
Lemma sync_completes (p1 p2 : ReleasePointer) (w w' : World) (u : ()) :
  syncWebclient p1 p2 w = (Ok u, w') ->
  trace w' = (trace w ++ sync_lines p1 p2)%list
  /\ console w' = (console w ++ [[(Green, "✓"); (Plain, " Sync webclient.")]])%list
  /\ exit_code w' = exit_code w.
Proof.
  unfold syncWebclient. intros H.
  apply bind_inv in H as (? & w1 & (T1 & C1 & E1)%commandeVerbose_ok_world & H).
  apply bind_inv in H as (? & w2 & (T2 & C2 & E2)%commandeVerbose_ok_world & H).
  apply bind_inv in H as (? & w3 & (T3 & C3 & E3)%exec_ok_world & H).
  apply bind_inv in H as (? & w4 & (T4 & C4 & E4)%exec_ok_world & H).
  unfold success, console_log in H. injection H as _ <-.
  cbn [trace console exit_code].
  rewrite T4, T3, T2, T1, C4, C3, C2, C1, E4, E3, E2, E1.
  unfold sync_lines. rewrite <- !app_assoc. split_and!; reflexivity.
Qed.

(** A run of the [try] block that resolves went through the
    synchronisation and called [process.exit(0)]. *)
Lemma workflow_completes (argv : Argv) (w w' : World) (u : ()) :
  workflow argv w = (Ok u, w') ->
  exit_code w' = Some 0
  /\ exists angularRelease webclientRelease ran printed,
      trace w' = (ran ++ sync_lines webclientRelease angularRelease)%list
      /\ console w'
         = (printed ++ completion_lines angularRelease webclientRelease)%list.
Proof.
  unfold workflow. intros H.
  apply bind_inv in H as (? & w1 & _ & H).
  apply bind_inv in H as (? & w2 & _ & H).
  apply bind_inv in H as (a & w3 & _ & H).
  apply bind_inv in H as (b & w4 & _ & H).
  rewrite !console_log_then in H.
  apply bind_inv in H as (? & w5 & (T & C & _)%sync_completes & H).
  unfold process_exit in H. injection H as _ <-.
  cbn [trace console exit_code]. split; [done |].
  exists a, b. eexists _, (console w4). split; [exact T |].
  rewrite C. unfold console_log, completion_lines. cbn [snd console].
  by rewrite <- !app_assoc.
Qed.





End Driver.

(** ** The loader (claim C9) *)

Section Loader.

Import ProtonLoader.

Lemma frame_after_rAF (cb : Callback) (p : Page) :
  classList (animation_frame (_rAF cb p)) = call (classList (animation_frame p)) cb.
Proof. unfold animation_frame, _rAF. cbn. by rewrite foldl_app. Qed.

(** C9: a [networkActivity] event of type [type] reaches the listener.
    Nothing changes before the next animation frame.  At that frame, for the
    type [load] the class list has gained [show], for the type [close] it has
    lost [show], and for any other type it is what it would have been without
    the event. *)
Theorem C9_loader_class (type : Js.Val) (p : Page) :
  classList (on_networkActivity type p) = classList p
  /\ classList (animation_frame (on_networkActivity type p))
     = (if Js.is_str type "load"
        then {["show"]} ∪ classList (animation_frame p)
        else if Js.is_str type "close"
        then classList (animation_frame p) ∖ {["show"]}
        else classList (animation_frame p))
  /\ (type = Js.Str "load" ->
      "show" ∈ classList (animation_frame (on_networkActivity type p)))
  /\ (type = Js.Str "close" ->
      "show" ∉ classList (animation_frame (on_networkActivity type p)))
  /\ (type <> Js.Str "load" -> type <> Js.Str "close" ->
      animation_frame (on_networkActivity type p) = animation_frame p).
Proof.
  split_and!.
  - unfold on_networkActivity.
    by destruct (Js.is_str type "load"), (Js.is_str type "close").
  - unfold on_networkActivity.
    destruct (Js.is_str type "load") eqn:Hload.
    + assert (Js.is_str type "close" = false) as ->.
      { destruct type as [| | |s]; try done. cbn in *.
        apply String.eqb_eq in Hload as ->. done. }
      apply frame_after_rAF.
    + destruct (Js.is_str type "close"); [apply frame_after_rAF | done].
  - intros ->.
    change (on_networkActivity (Js.Str "load") p)
      with (_rAF (ClassListAdd "show") p).
    rewrite frame_after_rAF. cbn [call]. set_solver.
  - intros ->.
    change (on_networkActivity (Js.Str "close") p)
      with (_rAF (ClassListRemove "show") p).
    rewrite frame_after_rAF. cbn [call].
    intros [_ Hnot]%elem_of_difference. by apply Hnot, elem_of_singleton.
  - intros Hload Hclose. unfold on_networkActivity.
    assert (Js.is_str type "load" = false) as ->.
    { destruct type as [| | |s]; try done. cbn.
      apply String.eqb_neq. congruence. }
    assert (Js.is_str type "close" = false) as ->; [| done].
    destruct type as [| | |s]; try done. cbn.
    apply String.eqb_neq. congruence.
Qed.

End Loader.

(** ** The build configuration (claim C10) *)

Section BuildConfiguration.

Import ConfBuild.

Lemma bindPrefix_prefixed (name : string) :
  String.prefix "node_modules/" (bindPrefix name) = true.
Proof. unfold bindPrefix. apply prefix_append. Qed.

Lemma bindPrefix_all (names : list string) :
  Forall (fun path => String.prefix "node_modules/" path = true)
    (bindPrefix <$> names).
Proof. apply Forall_fmap, Forall_forall. intros name _. apply bindPrefix_prefixed. Qed.

(** C10: every path of [vendor_files] (js, jsLazy, jsLazy2, css, fonts,
    sass_include_dirs) and of [external_files.openpgp] begins with
    [node_modules/]; [external_files.manifest] holds the single path
    [manifest.json], which does not. *)
Theorem C10_paths_prefixed :
  Forall (fun path => String.prefix "node_modules/" path = true)
    (openpgp (external_files module_exports))
  /\ Forall (fun path => String.prefix "node_modules/" path = true)
       (js (vendor_files module_exports))
  /\ Forall (fun path => String.prefix "node_modules/" path = true)
       (jsLazy (vendor_files module_exports))
  /\ Forall (fun path => String.prefix "node_modules/" path = true)
       (jsLazy2 (vendor_files module_exports))
  /\ Forall (fun path => String.prefix "node_modules/" path = true)
       (css (vendor_files module_exports))
  /\ Forall (fun path => String.prefix "node_modules/" path = true)
       (fonts (vendor_files module_exports))
  /\ Forall (fun path => String.prefix "node_modules/" path = true)
       (sass_include_dirs (vendor_files module_exports))
  /\ manifest (external_files module_exports) = ["manifest.json"]
  /\ String.prefix "node_modules/" "manifest.json" = false.
Proof. split_and!; try apply bindPrefix_all; reflexivity. Qed.

End BuildConfiguration.

(** * Further properties of the code *)

(** ** What the resolution calls return and leave *)

Section ResolutionBehaviour.

Import Sample.

Lemma prefix_length (a b : string) :
  String.prefix a b = true -> String.length a <= String.length b.
Proof.
  revert b. induction a as [|x a IH]; intros b; [simpl; lia |].
  destruct b as [|y b]; [done |]. simpl.
  destruct (Ascii.ascii_dec x y); [| done]. intros H. apply IH in H. lia.
Qed.

(** The first piece of a split is the start of the text. *)
Lemma first_piece_prefix (sep s : string) :
  String.prefix (Text.item 0 (Text.split sep s)) s = true.
Proof.
  unfold Text.split. induction s as [|c s IH]; [done |].
  cbn [Text.split_from]. destruct (String.prefix sep (String c s)); [done |].
  destruct (Text.split_from sep 0 s) as [|piece pieces]; cbn in *.
  - destruct (Ascii.ascii_dec c c); [by destruct s | done].
  - by destruct (Ascii.ascii_dec c c).
Qed.

(** When the separator occurs, the first piece stops before it. *)
Lemma first_piece_short (sep s : string) :
  Text.contains sep s = true ->
  String.length (Text.item 0 (Text.split sep s)) + String.length sep
  <= String.length s.
Proof.
  unfold Text.split. induction s as [|c s IH].
  - destruct sep; cbn; [lia | done].
  - cbn [Text.contains Text.split_from].
    destruct (String.prefix sep (String c s)) eqn:Hhere.
    + intros _. apply prefix_length in Hhere. cbn in *. lia.
    + cbn [orb]. intros Hlater. specialize (IH Hlater).
      destruct (Text.split_from sep 0 s) as [|piece pieces]; cbn in *; lia.
Qed.

Lemma before_dashes_whole (subject : string) :
  before_dashes subject = subject <-> Text.contains "---" subject = false.
Proof.
  unfold before_dashes. split.
  - intros Hsame. destruct (Text.contains "---" subject) eqn:Hc; [| done].
    apply first_piece_short in Hc. rewrite Hsame in Hc. simpl in Hc. lia.
  - intros Hc. by rewrite split_absent.
Qed.

Lemma pointer_read_label (c : Commit) :
  String.prefix (label (pointer_read c)) (subject c) = true
  /\ (label (pointer_read c) = subject c
      <-> Text.contains "---" (subject c) = false).
Proof.
  split; [apply first_piece_prefix | apply before_dashes_whole].
Qed.





End ResolutionBehaviour.

(** ** The remote bootstrap, when it fails and when it succeeds *)

Section BootstrapBehaviour.

Import Sample.

(** What the command line of [addPublicRemote] does to the clone. *)
Lemma bootstrap_outcome (r : Repo) :
  remotes r !! "webclient" = None ->
  let hosted := servers r !! mirror_url ≫= (fun bs => bs !! "public") in
  if Nat.eqb (status (run_chain bootstrap r).1) 0
  then head (run_chain bootstrap r).2 = "public"
       /\ branches r !! "public" = None
       /\ is_Some hosted
       /\ current (run_chain bootstrap r).2 = hosted
  else branches (run_chain bootstrap r).2 = branches r
       /\ head (run_chain bootstrap r).2 = head r.
Proof.
  intros Hrm hosted. subst hosted. unfold bootstrap, mirror_url.
  cbn [run_chain run]. unfold remote_add. rewrite Hrm.
  cbn [ok fail Nat.eqb status fst snd config_set].
  unfold fetch. cbn [remotes with_remotes with_config]. rewrite lookup_insert_eq.
  cbn [url servers with_remotes with_config].
  destruct (servers r !! "git@github.com:ProtonMail/WebClient.git")
    as [theirs|]; cbn; [| done].
  unfold checkout_new. cbn. rewrite lookup_insert_eq. cbn.
  destruct (branches r !! "public"); cbn; [done |].
  destruct (theirs !! "public") as [h|] eqn:Hh; cbn; [| done].
  unfold current. cbn. by rewrite lookup_insert_eq.
Qed.

(** X3: the remote is not registered and the command line of
    [addPublicRemote] fails (the mirror cannot be reached, or it has no branch
    [public]).  [hasPublicRemote] rejects with the error of that line; no
    branch was created and the branch checked out is the same, but the remote
    stays registered: the next call finds it, prints that the remote exists
    and resolves without running the set-up again. *)
Theorem X3_failed_bootstrap_is_not_retried (w : World) :
  remote_found (repo w) = false ->
  status (run_chain bootstrap (repo w)).1 <> 0 ->
  let w1 := (hasPublicRemote w).2 in
  (hasPublicRemote w).1
  = Throw (command_failed bootstrap (run_chain bootstrap (repo w)).1)
  /\ branches (repo w1) = branches (repo w)
  /\ head (repo w1) = head (repo w)
  /\ hasPublicRemote w1
     = (Ok (),
        said "Public remote exists"
          (after [[RemoteGrep "webclient"]] (repo w1) w1)).
Proof.
  intros Hmissing Hfail w1.
  pose proof (bootstrap_outcome (repo w) (not_found_unregistered _ Hmissing))
    as Hout. cbv zeta in Hout.
  pose proof (hasPublicRemote_run w) as Hrun. cbv zeta in Hrun.
  apply Nat.eqb_neq in Hfail. rewrite Hmissing, Hfail in Hrun.
  rewrite Hfail in Hout. destruct Hout as [Hbranches Hhead].
  subst w1. rewrite Hrun. cbn [fst snd repo after]. split_and!; try done.
  pose proof (hasPublicRemote_run
                (after [[RemoteGrep "webclient"]; bootstrap]
                   (run_chain bootstrap (repo w)).2 w)) as Hagain.
  cbv zeta in Hagain. cbn [repo after] in Hagain.
  rewrite (registered_found _ (bootstrap_registers (repo w))) in Hagain.
  exact Hagain.
Qed.

(** Without a way to the mirror, the fetch fails and the set-up stops. *)
Lemma X3_witness :
  (hasPublicRemote (start offline_clone)).1
  = Throw (command_failed bootstrap (run_chain bootstrap offline_clone).1)
  /\ branches (repo (hasPublicRemote (start offline_clone)).2)
     = branches offline_clone.
Proof.
  destruct (X3_failed_bootstrap_is_not_retried (start offline_clone))
    as (Hthrow & Hbranches & _).
  - vm_compute. reflexivity.
  - vm_compute. discriminate.
  - split; [exact Hthrow | exact Hbranches].
Defined.

(** X4: the remote is not registered and the command line of
    [addPublicRemote] succeeds.  There was no local branch [public];
    [hasPublicRemote] resolves and leaves the clone on the new branch
    [public], whose history is the hosted one: the step that follows in the
    script, [getAngularRelease], reads the history of [public]. *)
Theorem X4_bootstrap_switches_to_public (w : World) :
  remote_found (repo w) = false ->
  status (run_chain bootstrap (repo w)).1 = 0 ->
  let w1 := (hasPublicRemote w).2 in
  (hasPublicRemote w).1 = Ok ()
  /\ branches (repo w) !! "public" = None
  /\ head (repo w1) = "public"
  /\ is_Some (current (repo w1))
  /\ current (repo w1)
     = servers (repo w) !! mirror_url ≫= (fun bs => bs !! "public").
Proof.
  intros Hmissing Hok w1.
  pose proof (bootstrap_outcome (repo w) (not_found_unregistered _ Hmissing))
    as Hout. cbv zeta in Hout.
  pose proof (hasPublicRemote_run w) as Hrun. cbv zeta in Hrun.
  apply Nat.eqb_eq in Hok. rewrite Hmissing, Hok in Hrun. rewrite Hok in Hout.
  destruct Hout as (Hhead & Hnone & Hsome & Hcur).
  subst w1. rewrite Hrun. cbn [fst snd]. unfold said, success, console_log.
  cbn [snd repo after]. rewrite Hcur. done.
Qed.

(** On a fresh clone of the sample the script goes on from [public]. *)
Lemma X4_witness :
  head (repo (hasPublicRemote (start fresh_clone)).2) = "public"
  /\ current (repo (hasPublicRemote (start fresh_clone)).2) = Some public_history.
Proof.
  destruct (X4_bootstrap_switches_to_public (start fresh_clone))
    as (_ & _ & Hhead & _ & Hcur).
  - vm_compute. reflexivity.
  - vm_compute. reflexivity.
  - split; [exact Hhead |]. rewrite Hcur. vm_compute. reflexivity.
Defined.

End BootstrapBehaviour.

(** ** Where a failure leaves the clone *)

Section FailureBehaviour.

Import Sample.

Lemma run_keeps_servers (c : Cmd) (r : Repo) :
  match c with
  | Push _ _ => True
  | _ => servers (run c r).2 = servers r
  end.
Proof.
  destruct c; try done; cbn [run];
    unfold rev_parse_head, log1, grep, checkout, checkout_new, remote_add,
      config_set, fetch, pull, cherry_pick, ok, fail;
    repeat case_match; done.
Qed.

Lemma cherry_pick_keeps_head (a b : string) (r : Repo) :
  head (cherry_pick a b r).2 = head r.
Proof. unfold cherry_pick, ok, fail. repeat case_match; done. Qed.

Lemma checkout_keeps_servers (b : string) (r : Repo) :
  servers (checkout b r).2 = servers r.
Proof. apply (run_keeps_servers (Checkout b false)). Qed.

Lemma pull_keeps_servers (n b : string) (r : Repo) :
  servers (pull n b r).2 = servers r.
Proof. apply (run_keeps_servers (Pull n b)). Qed.

(** A relation that every command of a chain respects holds between the
    repository before the chain and the one it leaves, however far the chain
    gets. *)
Lemma run_chain_respects (R : Repo -> Repo -> Prop) (cs : list Cmd) (r : Repo) :
  (forall x, R x x) ->
  (forall x y z, R x y -> R y z -> R x z) ->
  (forall c x, c ∈ cs -> R x (run c x).2) ->
  R r (run_chain cs r).2.
Proof.
  intros Hrefl Htrans. revert r.
  induction cs as [|c cs IH]; intros r Hrun; [apply Hrefl |].
  cbn [run_chain]. pose proof (Hrun c r (list_elem_of_here _ _)) as Hc.
  destruct (run c r) as [o r1]. cbn [snd] in Hc.
  destruct (Nat.eqb (status o) 0); [| done].
  assert (R r1 (run_chain cs r1).2) as Hrest.
  { apply IH. intros c' x Hin. apply Hrun. by apply list_elem_of_further. }
  destruct (run_chain cs r1) as [o' r2]. cbn [snd] in *. by eapply Htrans.
Qed.

(** The first command line of [syncWebclient] writes nothing to a hosted
    repository, however far it gets. *)
Lemma prepare_keeps_servers (r : Repo) :
  servers (run_chain prepare r).2 = servers r.
Proof.
  apply (run_chain_respects (fun x y => servers y = servers x)).
  - done.
  - intros x y z Hxy Hyz. congruence.
  - intros c x Hin. unfold prepare in Hin.
    pose proof (run_keeps_servers c x) as Hc.
    repeat (apply elem_of_cons in Hin as [->|Hin]; [exact Hc |]).
    by apply elem_of_nil in Hin.
Qed.

(** [syncWebclient] when its first command line fails. *)
Lemma sync_stops_at_prepare (p1 p2 : ReleasePointer) (w : World) :
  status (run_chain prepare (repo w)).1 <> 0 ->
  exists w',
    syncWebclient p1 p2 w
    = (Throw (command_failed prepare (run_chain prepare (repo w)).1), w')
    /\ trace w' = (trace w ++ [prepare])%list
    /\ repo w' = (run_chain prepare (repo w)).2.
Proof.
  intros Hfail. unfold syncWebclient. fold prepare.
  pose proof (commandeVerbose_run prepare w) as Hprep.
  apply Nat.eqb_neq in Hfail. rewrite Hfail in Hprep.
  rewrite (bind_throw _ _ _ _ _ Hprep). by eexists.
Qed.

(** [syncWebclient] when the cherry-pick fails. *)
Lemma sync_stops_at_pick (p1 p2 : ReleasePointer) (w : World) :
  status (run_chain prepare (repo w)).1 = 0 ->
  status (cherry_pick (hash p1) (hash p2) (run_chain prepare (repo w)).2).1 <> 0 ->
  exists w',
    syncWebclient p1 p2 w
    = (Throw (command_failed [CherryPick (hash p1) (hash p2)]
                (cherry_pick (hash p1) (hash p2) (run_chain prepare (repo w)).2).1),
       w')
    /\ trace w' = (trace w ++ [prepare; [CherryPick (hash p1) (hash p2)]])%list
    /\ repo w' = (cherry_pick (hash p1) (hash p2) (run_chain prepare (repo w)).2).2.
Proof.
  intros Hok Hfail. unfold syncWebclient. fold prepare.
  pose proof (commandeVerbose_run prepare w) as Hprep.
  apply Nat.eqb_eq in Hok. rewrite Hok in Hprep.
  rewrite (bind_ok _ _ _ _ _ Hprep). cbv beta.
  match goal with |- context [(commandeVerbose ?cs ≫= _) ?w1] =>
    pose proof (commandeVerbose_run cs w1) as Hpick end.
  cbn [repo] in Hpick.
  rewrite run_chain_single in Hpick by (cbn [run]; exact Hfail).
  cbn [run] in Hpick. apply Nat.eqb_neq in Hfail. rewrite Hfail in Hpick.
  rewrite (bind_throw _ _ _ _ _ Hpick).
  eexists. split; [done |]. cbn [trace repo]. split; [| done].
  by rewrite <- app_assoc.
Qed.

(** X6: the first command line of [syncWebclient] succeeds and the
    cherry-pick fails (a conflict, an unknown revision, an empty range).
    [syncWebclient] rejects with the error of the cherry-pick and stops
    there: the clone is left on [public] as the cherry-pick left it, and no
    hosted repository has changed. *)
Theorem X6_failed_pick_leaves_public (p1 p2 : ReleasePointer) (w : World) :
  status (run_chain prepare (repo w)).1 = 0 ->
  status (cherry_pick (hash p1) (hash p2) (run_chain prepare (repo w)).2).1 <> 0 ->
  let pick := [CherryPick (hash p1) (hash p2)] in
  let left := (cherry_pick (hash p1) (hash p2) (run_chain prepare (repo w)).2) in
  (syncWebclient p1 p2 w).1 = Throw (command_failed pick left.1)
  /\ trace (syncWebclient p1 p2 w).2 = (trace w ++ [prepare; pick])%list
  /\ repo (syncWebclient p1 p2 w).2 = left.2
  /\ head (repo (syncWebclient p1 p2 w).2) = "public"
  /\ servers (repo (syncWebclient p1 p2 w).2) = servers (repo w).
Proof.
  intros Hok Hfail pick left.
  destruct (sync_stops_at_pick p1 p2 w Hok Hfail) as (w' & -> & Htrace & Hrepo).
  cbn [fst snd]. split_and!; try done.
  - rewrite Hrepo, cherry_pick_keeps_head. by apply prepared_on_public.
  - rewrite Hrepo.
    pose proof (run_keeps_servers (CherryPick (hash p1) (hash p2))
                  (run_chain prepare (repo w)).2) as Hpick.
    cbn [run] in Hpick. rewrite Hpick. apply prepare_keeps_servers.
Qed.

(** The replay of [Release 3.12.24: fixes] conflicts: the first commit of
    the range is replayed, the clone stays on [public], nothing is pushed. *)
Lemma X6_witness :
  head (repo (syncWebclient (pointer_of c2) (pointer_of c5)
                (start conflicting_clone)).2) = "public"
  /\ servers (repo (syncWebclient (pointer_of c2) (pointer_of c5)
                     (start conflicting_clone)).2)
     = servers conflicting_clone.
Proof.
  destruct (X6_failed_pick_leaves_public (pointer_of c2) (pointer_of c5)
              (start conflicting_clone)) as (_ & _ & _ & Hhead & Hservers).
  - vm_compute. reflexivity.
  - vm_compute. discriminate.
  - split; [exact Hhead | exact Hservers].
Defined.

(** X7: [syncWebclient] pushes only what a complete replay produced: when
    the push is among the command lines it ran, its first command line and
    the cherry-pick both succeeded. *)
Theorem X7_push_follows_complete_pick (p1 p2 : ReleasePointer) (w : World) :
  push_line ∈ drop (length (trace w)) (trace (syncWebclient p1 p2 w).2) ->
  status (run_chain prepare (repo w)).1 = 0
  /\ status (cherry_pick (hash p1) (hash p2) (run_chain prepare (repo w)).2).1 = 0.
Proof.
  intros Hpush.
  destruct (decide (status (run_chain prepare (repo w)).1 = 0)) as [Hok|Hfail].
  - split; [done |].
    destruct (decide (status (cherry_pick (hash p1) (hash p2)
                                (run_chain prepare (repo w)).2).1 = 0))
      as [|Hpick]; [done |].
    destruct (sync_stops_at_pick p1 p2 w Hok Hpick) as (w' & Hrun & Htrace & _).
    rewrite Hrun in Hpush. cbn [snd] in Hpush.
    rewrite Htrace, drop_app_length in Hpush.
    apply elem_of_cons in Hpush as [Heq|Hpush]; [discriminate |].
    apply elem_of_cons in Hpush as [Heq|Hpush]; [discriminate |].
    by apply elem_of_nil in Hpush.
  - destruct (sync_stops_at_prepare p1 p2 w Hfail) as (w' & Hrun & Htrace & _).
    rewrite Hrun in Hpush. cbn [snd] in Hpush.
    rewrite Htrace, drop_app_length in Hpush.
    apply elem_of_cons in Hpush as [Heq|Hpush]; [discriminate |].
    by apply elem_of_nil in Hpush.
Qed.

(** A sync that pushed, on the sample. *)
Lemma X7_witness :
  status (cherry_pick (sha c2) (sha c5)
            (run_chain prepare (clone "v3" v3_history public_history)).2).1 = 0.
Proof.
  apply (X7_push_follows_complete_pick (pointer_of c2) (pointer_of c5)
           (start (clone "v3" v3_history public_history))).
  vm_compute. apply list_elem_of_further, list_elem_of_further, list_elem_of_here.
Defined.

End FailureBehaviour.

(** ** Runs of the whole script *)

Section Runs.

Import Sample.

(** [syncWebclient] with twice the same hash rejects and writes nothing to a
    hosted repository. *)
Lemma sync_rejects_equal_hashes (p1 p2 : ReleasePointer) (w : World) :
  hash p1 = hash p2 ->
  exists e w',
    syncWebclient p1 p2 w = (Throw e, w')
    /\ servers (repo w') = servers (repo w).
Proof.
  intros Heq.
  destruct (decide (status (run_chain prepare (repo w)).1 = 0)) as [Hok|Hfail].
  - destruct (cherry_pick_same (hash p1) (run_chain prepare (repo w)).2)
      as [H128 Hsame].
    destruct (sync_stops_at_pick p1 p2 w Hok) as (w' & Hrun & _ & Hrepo).
    { rewrite <- Heq, H128. done. }
    eexists _, w'. split; [exact Hrun |].
    rewrite Hrepo, <- Heq, Hsame. apply prepare_keeps_servers.
  - destruct (sync_stops_at_prepare p1 p2 w Hfail) as (w' & Hrun & _ & Hrepo).
    eexists _, w'. split; [exact Hrun |].
    rewrite Hrepo. apply prepare_keeps_servers.
Qed.

(** X8: a run without [--help] in which the two releases resolve to the same
    commit, as they do when the mirror already ends with the commit to
    deploy.  The script does not end quietly: the synchronisation rejects,
    the error and the help text are printed, the exit status is 1, and no
    hosted repository has changed since the releases were resolved. *)
Theorem X8_same_release_exits_1
    (argv : Argv) (w w2 w3 : World) (angularRelease webclientRelease : ReleasePointer) :
  Js.truthy (argv_help argv) = false ->
  (isDeployAbleBranch;; hasPublicRemote;; getAngularRelease argv (argv_tag argv)) w
  = (Ok angularRelease, w2) ->
  getWebclientRelease w2 = (Ok webclientRelease, w3) ->
  hash angularRelease = hash webclientRelease ->
  exit_code (main argv w) = Some 1
  /\ servers (repo (main argv w)) = servers (repo w3)
  /\ exists e, last (console (main argv w)) = Some help_msg
             /\ error_line e ∈ console (main argv w).
Proof.
  intros Hhelp Hfirst Hsecond Heq.
  apply bind_inv in Hfirst as (? & wa & Hbranch & Hfirst).
  apply bind_inv in Hfirst as (? & wb & Hremote & Hangular).
  unfold main. rewrite Hhelp. cbn [negb]. unfold try_catch, workflow.
  rewrite (bind_ok _ _ _ _ _ Hbranch), (bind_ok _ _ _ _ _ Hremote),
    (bind_ok _ _ _ _ _ Hangular), (bind_ok _ _ _ _ _ Hsecond).
  rewrite !console_log_then.
  match goal with |- context [(syncWebclient ?a ?b ≫= _) ?w'] =>
    destruct (sync_rejects_equal_hashes a b w' (eq_sym Heq))
      as (e & w4 & Hsync & Hservers) end.
  rewrite (bind_throw _ _ _ _ _ Hsync), report_run.
  cbn [snd exit_code repo console]. split_and!; [done | exact Hservers |].
  exists e. split.
  - replace (console w4 ++ [error_line e; []; help_msg])%list
      with ((console w4 ++ [error_line e; []]) ++ [help_msg])%list
      by (by rewrite <- app_assoc).
    apply last_snoc.
  - apply elem_of_app. right. apply list_elem_of_here.
Qed.

(** The mirror of the sample ends with the last commit of [v3]: the run
    exits with status 1. *)
Lemma X8_witness :
  exit_code (main no_flags (start up_to_date_clone)) = Some 1.
Proof.
  refine (proj1 (X8_same_release_exits_1 no_flags (start up_to_date_clone)
    ((isDeployAbleBranch;; hasPublicRemote;;
      getAngularRelease no_flags (argv_tag no_flags)) (start up_to_date_clone)).2
    (getWebclientRelease
       ((isDeployAbleBranch;; hasPublicRemote;;
         getAngularRelease no_flags (argv_tag no_flags))
          (start up_to_date_clone)).2).2
    (pointer_of c5) (pointer_of c5) _ _ _ _)).
  - vm_compute. reflexivity.
  - vm_compute. reflexivity.
  - vm_compute. reflexivity.
  - reflexivity.
Defined.

(** Started with [--help], the script prints the help text once and does
    nothing else: it runs no command, leaves the repository as it is and
    does not call [process.exit]. *)
Lemma help_runs_nothing (argv : Argv) (w : World) :
  Js.truthy (argv_help argv) = true ->
  main argv w
  = {| repo := repo w;
       trace := trace w;
       console := console w ++ [help_msg];
       piped := piped w;
       exit_code := exit_code w |}.
Proof. intros Hhelp. unfold main. by rewrite Hhelp. Qed.

End Runs.

(** ** Several events before a frame *)

Section LoaderBehaviour.

Import ProtonLoader.

Lemma deliver_last (types : list Js.Val) (type : Js.Val) (p : Page) :
  deliver (types ++ [type]) p = on_networkActivity type (deliver types p).
Proof. unfold deliver. by rewrite foldl_app. Qed.

Lemma shown_after_last (types : list Js.Val) (type : Js.Val) (shown : bool) :
  shown_after (types ++ [type]) shown
  = if Js.is_str type "load" then true
    else if Js.is_str type "close" then false
    else shown_after types shown.
Proof. unfold shown_after. by rewrite foldl_app. Qed.

(** The class list at the frame that follows one more event. *)
Lemma frame_after_event (type : Js.Val) (p : Page) :
  classList (on_networkActivity type p) = classList p
  /\ classList (animation_frame (on_networkActivity type p))
     = if Js.is_str type "load"
       then {["show"]} ∪ classList (animation_frame p)
       else if Js.is_str type "close"
       then classList (animation_frame p) ∖ {["show"]}
       else classList (animation_frame p).
Proof.
  unfold on_networkActivity. destruct (Js.is_str type "load") eqn:Hload.
  - assert (Js.is_str type "close" = false) as ->.
    { destruct type as [| | |s]; try done. cbn in *.
      apply String.eqb_eq in Hload as ->. done. }
    split; [done | apply frame_after_rAF].
  - destruct (Js.is_str type "close"); [| done].
    split; [done | apply frame_after_rAF].
Qed.

(** X11: any number of [networkActivity] events reach the listener before
    the next animation frame.  Until that frame the class list does not
    change.  At the frame the last [load] or [close] decides whether [show]
    is in the class list (without any, it is there if it would have been),
    and no other class is added or removed. *)
Theorem X11_last_event_decides (types : list Js.Val) (p : Page) :
  classList (deliver types p) = classList p
  /\ ("show" ∈ classList (animation_frame (deliver types p))
      <-> shown_after types
            (bool_decide ("show" ∈ classList (animation_frame p))) = true)
  /\ (forall token, token <> "show" ->
        token ∈ classList (animation_frame (deliver types p))
        <-> token ∈ classList (animation_frame p)).
Proof.
  induction types as [|type types IH] using rev_ind.
  - split_and!; [done | | done]. cbn. by rewrite bool_decide_eq_true.
  - destruct IH as (Hbefore & Hshow & Hothers).
    rewrite deliver_last, shown_after_last.
    destruct (frame_after_event type (deliver types p)) as [-> ->].
    split; [done |].
    destruct (Js.is_str type "load"); [| destruct (Js.is_str type "close")].
    + split.
      * rewrite elem_of_union, elem_of_singleton.
        split; [done | intros _; by left].
      * intros token Htoken. rewrite <- (Hothers token Htoken).
        rewrite elem_of_union, elem_of_singleton.
        split; [by intros [?|?] | by right].
    + split.
      * rewrite elem_of_difference, elem_of_singleton.
        split; [by intros [_ ?] | done].
      * intros token Htoken. rewrite <- (Hothers token Htoken).
        rewrite elem_of_difference, elem_of_singleton.
        split; [by intros [? _] | by split].
    + done.
Qed.

End LoaderBehaviour.

(** ** Names and paths of the build configuration *)

Section PathBehaviour.

Import ConfBuild.

Lemma append_cancel (prefix a b : string) :
  prefix +:+ a = prefix +:+ b -> a = b.
Proof.
  induction prefix as [|c prefix IH]; [done |].
  rewrite !append_cons. intros [= H]. by apply IH.
Qed.

(** X12: [bindPrefix] keeps different names apart, so a list of paths built
    with [.map(bindPrefix)] repeats a path exactly when the list of names
    repeats a name, and it has as many paths as there are names. *)
Theorem X12_bindPrefix_keeps_names_apart (names : list string) :
  (forall a b, bindPrefix a = bindPrefix b -> a = b)
  /\ (NoDup (bindPrefix <$> names) <-> NoDup names)
  /\ length (bindPrefix <$> names) = length names.
Proof.
  split_and!.
  - intros a b. apply append_cancel.
  - assert (Inj (=) (=) bindPrefix) as Hinj
      by (intros a b; apply append_cancel).
    apply (NoDup_fmap bindPrefix).
  - apply length_fmap.
Qed.

(** The list [js] of the configuration names bootstrap.js twice; the other
    lists repeat nothing. *)
Example js_repeats_bootstrap :
  bool_decide (NoDup (js (vendor_files module_exports))) = false
  /\ count_occ String.string_dec (js (vendor_files module_exports))
       "node_modules/bootstrap-sass/assets/javascripts/bootstrap.js" = 2
  /\ bool_decide (NoDup (jsLazy (vendor_files module_exports)
                         ++ jsLazy2 (vendor_files module_exports)
                         ++ css (vendor_files module_exports)
                         ++ fonts (vendor_files module_exports)
                         ++ sass_include_dirs (vendor_files module_exports)
                         ++ openpgp (external_files module_exports))%list) = true.
Proof. split_and!; vm_compute; reflexivity. Qed.

End PathBehaviour.

(** ** A remote with a similar name *)

Section SimilarRemote.

Import Sample.

Lemma found_by_part_of_name (r : Repo) (n : string) (rm : Remote) :
  remotes r !! n = Some rm -> Grep.selects "webclient" n = true ->
  remote_found r = true.
Proof.
  intros Hrm Hsel. unfold remote_found. cbn [run]. unfold grep.
  assert (In n (List.filter (Grep.selects "webclient") (remote_names r))) as Hin.
  { apply filter_In. split; [| done].
    apply list_elem_of_In. unfold remote_names.
    apply list_elem_of_fmap. exists (n, rm). split; [done |].
    by apply elem_of_map_to_list. }
  by destruct (List.filter _ _).
Qed.

Lemma checkout_keeps_remotes (b : string) (r : Repo) :
  remotes (checkout b r).2 = remotes r.
Proof. unfold checkout. by destruct (branches r !! b). Qed.

Lemma pull_keeps_other_remotes (n b m : string) (r : Repo) :
  n <> m -> remotes (pull n b r).2 !! m = remotes r !! m.
Proof.
  intros Hnm. unfold pull, ok, fail.
  destruct (remotes r !! n) as [rm|]; [| done].
  destruct (servers r !! url rm ≫= _); [| done].
  destruct (current r); cbn; [| by rewrite lookup_insert_ne].
  repeat case_bool_decide; cbn; by rewrite lookup_insert_ne.
Qed.

(** Without a remote named [webclient] the first command line of
    [syncWebclient] cannot succeed. *)
Lemma prepare_needs_webclient (r : Repo) :
  remotes r !! "webclient" = None -> status (run_chain prepare r).1 <> 0.
Proof.
  intros Hnone. unfold prepare. cbn [run_chain run].
  pose proof (checkout_keeps_remotes "v3" r) as K1.
  destruct (checkout "v3" r) as [o1 r1]. cbn [snd] in K1.
  destruct (Nat.eqb (status o1) 0) eqn:E1; [| by apply Nat.eqb_neq in E1].
  pose proof (pull_keeps_other_remotes "origin" "v3" "webclient" r1) as K2.
  destruct (pull "origin" "v3" r1) as [o2 r2]. cbn [snd] in K2.
  destruct (Nat.eqb (status o2) 0) eqn:E2; [| by apply Nat.eqb_neq in E2].
  pose proof (checkout_keeps_remotes "public" r2) as K3.
  destruct (checkout "public" r2) as [o3 r3]. cbn [snd] in K3.
  destruct (Nat.eqb (status o3) 0) eqn:E3; [| by apply Nat.eqb_neq in E3].
  assert (remotes r3 !! "webclient" = None) as Hr3.
  { rewrite K3, K2 by done. by rewrite K1. }
  unfold pull. rewrite Hr3. cbn. done.
Qed.



End SimilarRemote.
